(** * A shallow embedding of [scrape_and_notify.py]

    The script watches the "YENİ" price of the "Cumhuriyet" row of a price
    table: four extraction strategies run in a fixed order, the first value
    found is rounded, compared with the stored one, and a change is
    announced and stored.

    Modelling choices.
    - A Python [str] is a list of code points ([pystr]).
    - The regular expressions of the source are compiled by hand into a
      small backtracking matcher with [re]'s search order (leftmost start,
      greedy repetitions tried longest first, lazy ones shortest first).
    - [decimal.Decimal] is modelled by its values (finite, infinite, NaN)
      and the operations the script uses, with the default context.
    - BeautifulSoup is a library: its object model is a record of
      operations ([SoupLib]) and the strategies are written over it, so
      every theorem about them holds for any parser behaving as the record.
    - The Unicode database ([str.upper], the decimal-digit property used by
      [Decimal(str)]) is a parameter as well.
    - The fetch, the clock, the state file and the Telegram call are the
      inputs and the events of a run of [main]. *)

From Stdlib Require Import ZArith QArith List String Ascii Bool Lia.
Import ListNotations.
Open Scope Z_scope.

(** ** Python strings *)

Definition pystr := list Z.

(** UTF-8 decoding, to write the source's (partly Turkish) literals. *)
Fixpoint utf8_decode (bs : list Z) : list Z :=
  match bs with
  | [] => []
  | b :: r =>
    if b <? 128 then b :: utf8_decode r else
    match r with
    | [] => []
    | b1 :: r1 =>
      if b <? 224 then (Z.land b 31 * 64 + Z.land b1 63) :: utf8_decode r1 else
      match r1 with
      | [] => []
      | b2 :: r2 =>
        if b <? 240 then
          (Z.land b 15 * 4096 + Z.land b1 63 * 64 + Z.land b2 63) :: utf8_decode r2
        else
          match r2 with
          | [] => []
          | b3 :: r3 =>
            (Z.land b 7 * 262144 + Z.land b1 63 * 4096 + Z.land b2 63 * 64
             + Z.land b3 63) :: utf8_decode r3
          end
      end
    end
  end.

Definition pystr_of (s : string) : pystr :=
  utf8_decode (map (fun a => Z.of_nat (nat_of_ascii a)) (list_ascii_of_string s)).

(** [Py_UNICODE_ISSPACE]: what [str.strip()], [str.isspace()] and the
    [\s] of [re] (on [str] patterns) take as whitespace. *)
Definition py_isspace (c : Z) : bool :=
  ((9 <=? c) && (c <=? 13)) || ((28 <=? c) && (c <=? 32)) || (c =? 133)
  || (c =? 160) || (c =? 5760) || ((8192 <=? c) && (c <=? 8202))
  || (c =? 8232) || (c =? 8233) || (c =? 8239) || (c =? 8287) || (c =? 12288).

Fixpoint lstrip_ws (s : pystr) : pystr :=
  match s with
  | c :: r => if py_isspace c then lstrip_ws r else s
  | [] => []
  end.

(** [s.strip()] *)
Definition py_strip (s : pystr) : pystr := rev (lstrip_ws (rev (lstrip_ws s))).

(** [s.replace(a, b)] for a one-character [a] and [b]. *)
Definition replace_char (a b : Z) (s : pystr) : pystr :=
  map (fun c => if c =? a then b else c) s.

(** [s.replace(a, "")] for a one-character [a]. *)
Definition remove_char (a : Z) (s : pystr) : pystr :=
  filter (fun c => negb (c =? a)) s.

(** [needle in hay] *)
Fixpoint py_contains (needle hay : pystr) : bool :=
  match hay with
  | [] => match needle with [] => true | _ => false end
  | _ :: r =>
    (if list_eq_dec Z.eq_dec (firstn (List.length needle) hay) needle then true else false)
    || py_contains needle r
  end.

Definition is_digit (c : Z) : bool := (48 <=? c) && (c <=? 57).

(** ** The regular expressions *)

(** [re.IGNORECASE] compares lower-cased characters; besides ASCII, the
    characters [re] folds onto an ASCII letter are U+0130 (İ, lower case
    [i]), U+0131 (ı, the [i] fix), U+017F (ſ, the [s] fix) and U+212A (the
    Kelvin sign, lower case [k]). Every letter of the source's patterns is
    ASCII or U+0130, so this comparison decides the matches exactly. *)
Definition sre_fold (c : Z) : Z :=
  if (65 <=? c) && (c <=? 90) then c + 32
  else if (c =? 304) || (c =? 305) then 105
  else if c =? 383 then 115
  else if c =? 8490 then 107
  else c.

Definition ci_eq (c d : Z) : bool := sre_fold c =? sre_fold d.

(** A compiled pattern: single-character tests, repetitions of a
    single-character class, the bounds of group 1, and the end anchor that
    [fullmatch] adds. *)
Inductive re_item :=
| RChar (p : Z -> bool)
| RRep (p : Z -> bool) (lo : nat) (hi : option nat) (greedy : bool)
| ROpen
| RClose
| REnd.

Definition regex := list re_item.

(** Length of the run of [p]-characters at the head of [s], at most [b]. *)
Fixpoint class_run (p : Z -> bool) (s : pystr) (b : nat) : nat :=
  match b, s with
  | O, _ => O
  | S b', c :: s' => if p c then S (class_run p s' b') else O
  | S _, [] => O
  end.

Fixpoint first_some {A B} (f : A -> option B) (l : list A) : option B :=
  match l with
  | [] => None
  | x :: r => match f x with Some y => Some y | None => first_some f r end
  end.

Definition groups := (option nat * option nat)%type.

(** [re]'s backtracking: the first way to match [r] at [i], in [re]'s order. *)
Fixpoint re_mat (r : regex) (s : pystr) (i : nat) (g : groups) {struct r}
  : option (nat * groups) :=
  match r with
  | [] => Some (i, g)
  | RChar p :: r' =>
    match nth_error s i with
    | Some c => if p c then re_mat r' s (S i) g else None
    | None => None
    end
  | RRep p lo hi greedy :: r' =>
    let n := class_run p (skipn i s) (match hi with Some h => h | None => List.length s end) in
    if Nat.ltb n lo then None else
    let ks := seq lo (S n - lo) in
    first_some (fun k => re_mat r' s (i + k) g) (if greedy then rev ks else ks)
  | ROpen :: r' => re_mat r' s i (Some i, snd g)
  | RClose :: r' => re_mat r' s i (fst g, Some i)
  | REnd :: r' => if Nat.eqb i (List.length s) then re_mat r' s i g else None
  end.

(** A match: start, end, and the text of group 1 (when it took part). *)
Record re_match := { m_start : nat; m_end : nat; m_group : option pystr }.

Definition slice (s : pystr) (a b : nat) : pystr := firstn (b - a) (skipn a s).

Definition match_at (r : regex) (s : pystr) (i : nat) : option re_match :=
  match re_mat r s i (None, None) with
  | Some (j, (Some a, Some b)) =>
      Some {| m_start := i; m_end := j; m_group := Some (slice s a b) |}
  | Some (j, _) => Some {| m_start := i; m_end := j; m_group := None |}
  | None => None
  end.

(** [pattern.search(s, pos)] *)
Definition re_search_from (r : regex) (s : pystr) (pos : nat) : option re_match :=
  first_some (match_at r s) (seq pos (S (List.length s) - pos)).

(** [pattern.search(s)] *)
Definition re_search (r : regex) (s : pystr) : option re_match := re_search_from r s 0.

(** [pattern.finditer(s)]: successive non-overlapping matches. *)
Fixpoint re_finditer_aux (fuel : nat) (r : regex) (s : pystr) (pos : nat) : list re_match :=
  match fuel with
  | O => []
  | S f =>
    match re_search_from r s pos with
    | None => []
    | Some m =>
      m :: re_finditer_aux f r s (if Nat.eqb (m_end m) (m_start m) then S (m_end m) else m_end m)
    end
  end.

Definition re_finditer (r : regex) (s : pystr) : list re_match :=
  re_finditer_aux (S (List.length s)) r s 0.

(** [pattern.findall(s)] for a pattern with one group. *)
Definition re_findall (r : regex) (s : pystr) : list pystr :=
  map (fun m => match m_group m with Some t => t | None => [] end) (re_finditer r s).

(** [pattern.fullmatch(s)] *)
Definition re_fullmatch (r : regex) (s : pystr) : bool :=
  match re_mat (r ++ [REnd]) s 0 (None, None) with Some _ => true | None => false end.

Definition lits_ci (s : string) : regex :=
  map (fun c => RChar (ci_eq c)) (pystr_of s).

Definition any_char (_ : Z) : bool := true.
(** [[İI]] under [re.IGNORECASE] *)
Definition yen_i (c : Z) : bool := ci_eq c 304 || ci_eq c 73.
(** [[\s:]] *)
Definition space_colon (c : Z) : bool := py_isspace c || (c =? 58).
(** [[0-9\.\,\s]] *)
Definition num_char (c : Z) : bool := is_digit c || (c =? 46) || (c =? 44) || py_isspace c.
(** [[:\-]] *)
Definition colon_dash (c : Z) : bool := (c =? 58) || (c =? 45).
(** [[0\s\.,]] *)
Definition zero_char (c : Z) : bool := (c =? 48) || py_isspace c || (c =? 46) || (c =? 44).

(** [r"Cumhuriyet"] with [re.IGNORECASE] *)
Definition CUMHURIYET_RE : regex := lits_ci "Cumhuriyet".

(** [FALLBACK_REGEX = r"Cumhuriyet[\s\S]{0,4000}?YEN[İI][\s:]*([0-9\.\,\s]+)"], [re.IGNORECASE] *)
Definition FALLBACK_REGEX : regex :=
  lits_ci "Cumhuriyet" ++ [RRep any_char 0 (Some 4000%nat) false] ++ lits_ci "YEN"
  ++ [RChar yen_i; RRep space_colon 0 None true; ROpen; RRep num_char 1 None true; RClose].

(** [r"YEN[İI][\s:]*([0-9\.\,\s]+)"], [re.IGNORECASE] (parse_price_with_bs4) *)
Definition YENI_RE : regex :=
  lits_ci "YEN" ++ [RChar yen_i; RRep space_colon 0 None true; ROpen; RRep num_char 1 None true; RClose].

(** [r"YEN[İI]\s*[:\-]?\s*([0-9\.\,\s]{3,})"], [re.IGNORECASE] (parse_price_neighborhood) *)
Definition YENI_BLOCK_RE : regex :=
  lits_ci "YEN" ++ [RChar yen_i; RRep py_isspace 0 None true; RRep colon_dash 0 (Some 1%nat) true;
                    RRep py_isspace 0 None true; ROpen; RRep num_char 3 None true; RClose].

(** [r"([0-9][0-9\.\,\s]{2,})"] *)
Definition NUMBER_BLOCK_RE : regex := [ROpen; RChar is_digit; RRep num_char 2 None true; RClose].

(** [r"[0\s\.,]+"] *)
Definition ZEROS_RE : regex := [RRep zero_char 1 None true].

(** [r"([0-9][0-9\.\,\s]{1,})"] (parse_price_via_table) *)
Definition CELL_NUMBER_RE : regex := [ROpen; RChar is_digit; RRep num_char 1 None true; RClose].

(** [r"[0-9]"] *)
Definition DIGIT_RE : regex := [RChar is_digit].

Definition group1 (m : option re_match) : option pystr :=
  match m with Some mm => m_group mm | None => None end.

(** ** Exceptions *)

(** The exceptions the script's code can raise: [decimal.InvalidOperation],
    [ValueError] and [OverflowError]. *)
Inductive exn := InvalidOperation | ValueError | OverflowError.

Definition py (A : Type) := (exn + A)%type.
Definition ret {A} (a : A) : py A := inr a.
Definition raise {A} (e : exn) : py A := inl e.
Definition bind {A B} (m : py A) (k : A -> py B) : py B :=
  match m with inl e => inl e | inr a => k a end.
Notation "x <- m ;; k" := (bind m (fun x => k)) (at level 61, m at next level, right associativity).

(** ** [decimal.Decimal] *)

(** A [Decimal]: a sign, and a coefficient with an exponent,
    an infinity, or a quiet or signalling NaN with its payload. *)
Inductive decimal :=
| Dfin (neg : bool) (coef : N) (exp : Z)
| Dinf (neg : bool)
| Dnan (neg : bool) (signaling : bool) (payload : N).

Definition sgnZ (neg : bool) (z : Z) : Z := if neg then - z else z.

(** The exact value of a finite [Decimal]. *)
Definition dec_val (d : decimal) : option Q :=
  match d with
  | Dfin neg c e =>
    Some (if 0 <=? e then inject_Z (sgnZ neg (Z.of_N c * 10 ^ e))
          else sgnZ neg (Z.of_N c) # Z.to_pos (10 ^ (- e)))
  | _ => None
  end.

Inductive ext := XNegInf | XFin (q : Q) | XPosInf.

Definition ext_of (d : decimal) : option ext :=
  match d with
  | Dfin _ _ _ => option_map XFin (dec_val d)
  | Dinf neg => Some (if neg then XNegInf else XPosInf)
  | Dnan _ _ _ => None
  end.

Definition ext_cmp (x y : ext) : comparison :=
  match x, y with
  | XNegInf, XNegInf | XPosInf, XPosInf => Eq
  | XNegInf, _ | _, XPosInf => Lt
  | _, XNegInf | XPosInf, _ => Gt
  | XFin a, XFin b => Qcompare a b
  end.

(** Numeric comparison; [None] when a NaN takes part. *)
Definition dec_cmp (a b : decimal) : option comparison :=
  match ext_of a, ext_of b with
  | Some x, Some y => Some (ext_cmp x y)
  | _, _ => None
  end.

Definition is_snan (d : decimal) : bool :=
  match d with Dnan _ true _ => true | _ => false end.

(** [<], [>=], [>]: a NaN signals [InvalidOperation], which the default
    context traps. *)
Definition dec_lt (a b : decimal) : py bool :=
  match dec_cmp a b with
  | Some c => ret (match c with Lt => true | _ => false end)
  | None => raise InvalidOperation
  end.

Definition dec_ge (a b : decimal) : py bool :=
  match dec_cmp a b with
  | Some c => ret (match c with Lt => false | _ => true end)
  | None => raise InvalidOperation
  end.

Definition dec_gt (a b : decimal) : py bool :=
  match dec_cmp a b with
  | Some c => ret (match c with Gt => true | _ => false end)
  | None => raise InvalidOperation
  end.

(** [!=]: a signalling NaN signals, a quiet NaN is unequal to everything. *)
Definition dec_ne (a b : decimal) : py bool :=
  if is_snan a || is_snan b then raise InvalidOperation else
  match dec_cmp a b with
  | Some Eq => ret false
  | _ => ret true
  end.

(** [c / m] rounded to the nearest integer, ties to even ([c >= 0], [m > 0]). *)
Definition round_half_even_div (c m : Z) : Z :=
  let q := c / m in
  let r := c mod m in
  match Z.compare (2 * r) m with
  | Lt => q
  | Gt => q + 1
  | Eq => if Z.even q then q else q + 1
  end.

(** The default context's precision. *)
Definition DEFAULT_PREC : Z := 28.

(** [d.quantize(Decimal("1"))] in the default context (ROUND_HALF_EVEN,
    precision 28, [InvalidOperation] trapped). *)
Definition dec_quantize1 (d : decimal) : py decimal :=
  match d with
  | Dnan _ true _ => raise InvalidOperation
  | Dnan _ false _ => ret d
  | Dinf _ => raise InvalidOperation
  | Dfin neg c e =>
    let c' := if 0 <=? e then Z.of_N c * 10 ^ e else round_half_even_div (Z.of_N c) (10 ^ (- e)) in
    if 10 ^ DEFAULT_PREC <=? c' then raise InvalidOperation else ret (Dfin neg (Z.to_N c') 0)
  end.

(** [int(d)]: truncation toward zero. *)
Definition dec_to_int (d : decimal) : py Z :=
  match d with
  | Dfin neg c e => ret (sgnZ neg (if 0 <=? e then Z.of_N c * 10 ^ e else Z.of_N c / 10 ^ (- e)))
  | Dinf _ => raise OverflowError
  | Dnan _ _ _ => raise ValueError
  end.

(** [int(float(d))]: [float(d)] rounds to the nearest binary64 (ties to
    even; beyond the largest finite double it is [inf]), [int] truncates.
    A NaN raises [ValueError] ([float] of a signalling NaN, [int] of a quiet
    one), an infinity [OverflowError]. Values below 1 give 0 whatever their
    binary64 rounding, so subnormals need no case of their own. *)
Definition float_trunc_of_dec (d : decimal) : py Z :=
  match d with
  | Dnan _ _ _ => raise ValueError
  | Dinf _ => raise OverflowError
  | Dfin neg c e =>
    if (c =? 0)%N then ret 0 else
    let num := if 0 <=? e then Z.of_N c * 10 ^ e else Z.of_N c in
    let den := if 0 <=? e then 1 else 10 ^ (- e) in
    let scaled k := if 0 <=? k then (num, den * 2 ^ k) else (num * 2 ^ (- k), den) in
    let k0 := Z.log2 num - Z.log2 den - 52 in
    let k1 := let '(n0, d0) := scaled k0 in if n0 / d0 <? 2 ^ 52 then k0 - 1 else k0 in
    let '(n1, d1) := scaled k1 in
    let m0 := round_half_even_div n1 d1 in
    let '(m, k) := if m0 =? 2 ^ 53 then (2 ^ 52, k1 + 1) else (m0, k1) in
    if 972 <=? k then raise OverflowError
    else ret (sgnZ neg (if 0 <=? k then m * 2 ^ k else m / 2 ^ (- k)))
  end.

(** Decimal digits of [n >= 0], most significant first. *)
Fixpoint nat_digits (fuel : nat) (n : Z) (acc : pystr) : pystr :=
  match fuel with
  | O => acc
  | S f =>
    let acc' := (48 + n mod 10) :: acc in
    if n <? 10 then acc' else nat_digits f (n / 10) acc'
  end.

Definition z_digits (n : Z) : pystr := nat_digits (S (Z.to_nat (Z.log2 n))) n [].

(** [str(n)] for an [int]. *)
Definition py_str_int (n : Z) : pystr :=
  (if n <? 0 then [45] else []) ++ z_digits (Z.abs n).

(** Commas every three digits, on the digits written backwards. *)
Fixpoint group3_rev (ds : pystr) : pystr :=
  match ds with
  | a :: b :: c :: ((_ :: _) as r) => a :: b :: c :: 44 :: group3_rev r
  | _ => ds
  end.

(** [f"{n:,}"] for an [int]. *)
Definition fmt_thousands (n : Z) : pystr :=
  (if n <? 0 then [45] else []) ++ rev (group3_rev (rev (z_digits (Z.abs n)))).

(** [_format_tl(n)] for a [Decimal] [n]. *)
Definition format_tl (n : decimal) : py pystr :=
  as_int <- match (q <- dec_quantize1 n ;; dec_to_int q) with
            | inr z => ret z
            | inl _ => float_trunc_of_dec n
            end ;;
  ret (replace_char 44 46 (fmt_thousands as_int)).

(** ** [Decimal(str)] *)

(** libmpdec's limits ([MAX_PREC], [MAX_EMAX], [MIN_EMIN] on 64 bits):
    [Decimal(str)] converts exactly in this context and raises
    [InvalidOperation] when it cannot. *)
Definition MAX_PREC : Z := 999999999999999999.
Definition MAX_EMAX : Z := 999999999999999999.
Definition MIN_ETINY : Z := - 999999999999999999 - (MAX_PREC - 1).

Fixpoint span_digits (s : pystr) : pystr * pystr :=
  match s with
  | c :: r => if is_digit c then let '(ds, rest) := span_digits r in (c :: ds, rest) else ([], s)
  | [] => ([], [])
  end.

Definition digits_value (ds : pystr) : Z := fold_left (fun acc d => acc * 10 + (d - 48)) ds 0.

Fixpoint drop_zeros (ds : pystr) : pystr :=
  match ds with 48 :: r => drop_zeros r | _ => ds end.

(** Number of significant digits of a digit string (at least 1). *)
Definition nsig (ds : pystr) : Z := Z.max 1 (Z.of_nat (List.length (drop_zeros ds))).

Definition parse_sign (s : pystr) : bool * pystr :=
  match s with
  | c :: r => if c =? 43 then (false, r) else if c =? 45 then (true, r) else (false, s)
  | [] => (false, [])
  end.

(** [s] begins with [w] (lower-case ASCII), ignoring ASCII case. *)
Fixpoint prefix_ci (w s : pystr) : option pystr :=
  match w, s with
  | [], _ => Some s
  | a :: w', c :: s' =>
    if (c =? a) || (c + 32 =? a) then prefix_ci w' s' else None
  | _ :: _, [] => None
  end.

(** An exponent part, after its indicator. *)
Definition parse_exponent (s : pystr) : option Z :=
  let '(neg, s1) := parse_sign s in
  match span_digits s1 with
  | ((_ :: _) as ds, []) => Some (sgnZ neg (digits_value ds))
  | _ => None
  end.

(** A NaN payload: digits only. *)
Definition parse_payload (s : pystr) : option N :=
  match span_digits s with
  | (ds, []) => if nsig ds <=? MAX_PREC then Some (Z.to_N (digits_value ds)) else None
  | _ => None
  end.

(** libmpdec's [mpd_qset_string] on the ASCII string, and the exactness
    check of the [Decimal] constructor. *)
Definition mpd_parse (s : pystr) : option decimal :=
  let '(neg, s1) := parse_sign s in
  match prefix_ci (pystr_of "nan") s1 with
  | Some p => option_map (Dnan neg false) (parse_payload p)
  | None =>
  match prefix_ci (pystr_of "snan") s1 with
  | Some p => option_map (Dnan neg true) (parse_payload p)
  | None =>
  match prefix_ci (pystr_of "inf") s1 with
  | Some [] => Some (Dinf neg)
  | Some p => match prefix_ci (pystr_of "inity") p with Some [] => Some (Dinf neg) | _ => None end
  | None =>
    let '(ids, s2) := span_digits s1 in
    let '(fds, s4) := match s2 with
                      | c :: s3 => if c =? 46 then span_digits s3 else ([], s2)
                      | [] => ([], [])
                      end in
    match ids ++ fds with
    | [] => None
    | ds =>
      let oe := match s4 with
                | [] => Some 0
                | c :: s5 => if (c =? 101) || (c =? 69) then parse_exponent s5 else None
                end in
      match oe with
      | None => None
      | Some e =>
        let exp := e - Z.of_nat (List.length fds) in
        if (nsig ds <=? MAX_PREC) && (Z.of_nat (List.length fds) <=? MAX_PREC)
           && (exp + nsig ds - 1 <=? MAX_EMAX) && (MIN_ETINY <=? exp)
        then Some (Dfin neg (Z.to_N (digits_value ds)) exp)
        else None
      end
    end
  end end end.

(** ** BeautifulSoup's object model *)

(** A value of an attribute: a string, or a list for the multi-valued ones
    ([class], [rel], ...). *)
Inductive attr_value := AttrStr (v : pystr) | AttrList (vs : list pystr).

(** The operations of [bs4] the script calls ([BeautifulSoup(markup,
    "html.parser")] and the methods of its nodes). *)
Record SoupLib := {
  snode : Type;
  (** [BeautifulSoup(markup, "html.parser")] *)
  soup_parse : pystr -> snode;
  (** [node.find_all([names])]: descendant tags so named, in document order *)
  soup_find_all : snode -> list string -> list snode;
  (** the descendant strings of a node, in document order *)
  soup_strings : snode -> list snode;
  (** the text of a string node *)
  soup_string_value : snode -> pystr;
  (** [node.get_text(" ", strip=True)] *)
  soup_get_text : snode -> pystr;
  (** [node.parent], which is also [node.find_parent()] *)
  soup_parent : snode -> option snode;
  (** [node.find_parent(name)] *)
  soup_find_parent_named : snode -> string -> option snode;
  (** [tag.attrs.items()] *)
  soup_attrs : snode -> list (pystr * attr_value)
}.

(** [node.find(name)] is the first of [node.find_all(name)]. *)
Definition soup_find (L : SoupLib) (n : snode L) (name : string) : option (snode L) :=
  hd_error (soup_find_all L n [name]).

(** What BeautifulSoup with "html.parser" builds from markup holding no
    [<] and no [&]: the document, whose only child is the text itself (none
    when the text is empty). *)
Inductive plain_node := PlainDoc (t : pystr) | PlainText (t : pystr).

Definition plain_soup : SoupLib := {|
  snode := plain_node;
  soup_parse := PlainDoc;
  soup_find_all := fun _ _ => [];
  soup_strings := fun n => match n with
                           | PlainDoc [] => []
                           | PlainDoc t => [PlainText t]
                           | PlainText _ => []
                           end;
  soup_string_value := fun n => match n with PlainDoc t | PlainText t => t end;
  soup_get_text := fun n => match n with PlainDoc t | PlainText t => py_strip t end;
  soup_parent := fun n => match n with PlainText t => Some (PlainDoc t) | PlainDoc _ => None end;
  soup_find_parent_named := fun _ _ => None;
  soup_attrs := fun _ => []
|}.

(** A parse tree with one table, for the concrete runs of the table
    strategy: the tree "html.parser" builds from
    [<table><tr><th>Cins</th><th>ESKI</th><th>YENI</th></tr>]
    [<tr><td>Cumhuriyet</td><td>29.000</td><td>29.650</td></tr></table>]
    (its parse function gives that tree whatever the markup). Nodes: the
    document, the table, row [i], cell [j] of row [i] and its string. *)
Inductive tnode := TDoc | TTable | TRow (i : nat) | TCell (i j : nat) | TStr (i j : nat).

Definition fixture_rows : list (list pystr) :=
  [[pystr_of "Cins"; pystr_of "ESKI"; pystr_of "YENI"];
   [pystr_of "Cumhuriyet"; pystr_of "29.000"; pystr_of "29.650"]].

Definition cell_text (i j : nat) : pystr := nth j (nth i fixture_rows []) [].

Definition row_desc (i : nat) : list tnode := flat_map (fun j => [TCell i j; TStr i j]) (seq 0 3).

(** The descendants of a node, in document order. *)
Definition tdesc (n : tnode) : list tnode :=
  match n with
  | TDoc => TTable :: flat_map (fun i => TRow i :: row_desc i) (seq 0 2)
  | TTable => flat_map (fun i => TRow i :: row_desc i) (seq 0 2)
  | TRow i => row_desc i
  | TCell i j => [TStr i j]
  | TStr _ _ => []
  end.

Definition ttag (n : tnode) : option string :=
  match n with
  | TTable => Some "table"%string
  | TRow _ => Some "tr"%string
  | TCell O _ => Some "th"%string
  | TCell _ _ => Some "td"%string
  | _ => None
  end.

Definition tparent (n : tnode) : option tnode :=
  match n with
  | TDoc => None
  | TTable => Some TDoc
  | TRow _ => Some TTable
  | TCell i _ => Some (TRow i)
  | TStr i j => Some (TCell i j)
  end.

Fixpoint tfind_parent (fuel : nat) (n : tnode) (name : string) : option tnode :=
  match fuel with
  | O => None
  | S f =>
    match tparent n with
    | Some p =>
      if match ttag p with Some t => String.eqb t name | None => false end then Some p
      else tfind_parent f p name
    | None => None
    end
  end.

Definition is_tstr (n : tnode) : bool := match n with TStr _ _ => true | _ => false end.

Definition tstring_value (n : tnode) : pystr :=
  match n with TStr i j => cell_text i j | _ => [] end.

Fixpoint join_space (ts : list pystr) : pystr :=
  match ts with
  | [] => []
  | [t] => t
  | t :: r => t ++ [32] ++ join_space r
  end.

(** [get_text(" ", strip=True)]: the stripped non-empty strings, joined by
    spaces. *)
Definition tget_text (n : tnode) : pystr :=
  let strs := if is_tstr n then [n] else filter is_tstr (tdesc n) in
  join_space (filter (fun t => match t with [] => false | _ => true end)
                     (map (fun s => py_strip (tstring_value s)) strs)).

Definition table_soup : SoupLib := {|
  snode := tnode;
  soup_parse := fun _ => TDoc;
  soup_find_all := fun n names =>
    filter (fun d => match ttag d with Some t => existsb (String.eqb t) names | None => false end)
           (tdesc n);
  soup_strings := fun n => filter is_tstr (tdesc n);
  soup_string_value := tstring_value;
  soup_get_text := tget_text;
  soup_parent := tparent;
  soup_find_parent_named := tfind_parent 4;
  soup_attrs := fun _ => []
|}.

(** ** [fetch_html] *)

(** What [session.get(url, headers=HEADERS, timeout=timeout)] gives: a
    response with its status code and text, or a raised
    [requests.RequestException]. *)
Inductive response := Response (status_code : Z) (text : pystr) | RequestException.

(** The text [fetch_html] returns for a response:
    [r.status_code == 200 and r.text]. *)
Definition ok_response (r : response) : option pystr :=
  match r with
  | Response code text =>
    if (code =? 200) && (match text with [] => false | _ => true end) then Some text else None
  | RequestException => None
  end.

(** What [fetch_html] does besides printing: the requests, by attempt
    number, and the [time.sleep] calls. *)
Inductive fetch_event := Get (attempt : nat) | Sleep (seconds : Z).

(** The loop over [range(1, max_retries + 1)] from the given attempts on;
    [get attempt] is the answer to that attempt's request. *)
Fixpoint fetch_loop (get : nat -> response) (max_retries : nat) (attempts : list nat) (backoff : Z)
  : list fetch_event * option pystr :=
  match attempts with
  | [] => ([], None)
  | attempt :: rest =>
    match ok_response (get attempt) with
    | Some text => ([Get attempt], Some text)
    | None =>
      let '(slept, backoff') :=
        if Nat.ltb attempt max_retries then ([Sleep backoff], backoff * 2) else ([], backoff) in
      let '(evs, r) := fetch_loop get max_retries rest backoff' in
      (Get attempt :: slept ++ evs, r)
    end
  end.

(** [fetch_html(url, max_retries, timeout)]; [url] and [timeout] are in
    [get]. *)
Definition fetch_html (get : nat -> response) (max_retries : nat) : list fetch_event * option pystr :=
  fetch_loop get max_retries (seq 1 max_retries) 1.

(** ASCII case mapping for [str.upper], and the digit table with no
    non-ASCII decimal digit: Unicode tables for the concrete runs below,
    all on ASCII text, where every table gives the same result. *)
Definition ascii_upper (s : pystr) : pystr :=
  map (fun c => if (97 <=? c) && (c <=? 122) then c - 32 else c) s.

Definition ascii_only_decimal (_ : Z) : option nat := None.

Section Script.

(** [Py_UNICODE_TODECIMAL] on characters beyond ASCII, [str.upper], and the
    HTML parser. *)
Context (unicode_decimal : Z -> option nat) (py_upper : pystr -> pystr) (L : SoupLib).

(** [numeric_as_ascii] of CPython's [_decimal] for the constructor:
    surrounding whitespace is stripped, [_] dropped, ASCII kept, other
    whitespace turned into a space and other decimal digits into ASCII
    ones; any other character makes the conversion fail. *)
Fixpoint numeric_as_ascii (u : pystr) : option pystr :=
  match u with
  | [] => Some []
  | ch :: r =>
    if ch =? 95 then numeric_as_ascii r
    else if (0 <? ch) && (ch <=? 127) then option_map (cons ch) (numeric_as_ascii r)
    else if py_isspace ch then option_map (cons 32) (numeric_as_ascii r)
    else match unicode_decimal ch with
         | Some d => option_map (cons (48 + Z.of_nat d)) (numeric_as_ascii r)
         | None => None
         end
  end.

(** [Decimal(s)] for a [str] [s]; [None] when it raises [InvalidOperation]. *)
Definition py_Decimal (s : pystr) : option decimal :=
  match numeric_as_ascii (py_strip s) with
  | Some a => mpd_parse a
  | None => None
  end.

(** [_turkish_number_to_decimal(num_text)] *)
Definition turkish_number_to_decimal (num_text : pystr) : option decimal :=
  let cleaned := py_strip num_text in
  let cleaned := remove_char 32 (replace_char 160 32 cleaned) in
  let cleaned := replace_char 44 46 (remove_char 46 cleaned) in
  py_Decimal cleaned.

Definition DEC_1000 : decimal := Dfin false 1000%N 0.

Definition found (m : option re_match) : bool :=
  match m with Some _ => true | None => false end.

(** *** parse_price_via_table *)

Definition get_text := soup_get_text L.

(** The header texts: those of the [thead]'s cells, or else those of the
    first row. *)
Definition header_texts (table : snode L) : list pystr :=
  let headers := match soup_find L table "thead" with
                 | Some thead => map get_text (soup_find_all L thead ["th"; "td"]%string)
                 | None => []
                 end in
  match headers with
  | [] => match soup_find L table "tr" with
          | Some first_tr => map get_text (soup_find_all L first_tr ["th"; "td"]%string)
          | None => []
          end
  | _ => headers
  end.

(** The first header whose upper-cased text contains "YEN". *)
Fixpoint yeni_index_from (i : nat) (headers : list pystr) : option nat :=
  match headers with
  | [] => None
  | h :: hs =>
    if py_contains (pystr_of "YEN") (py_upper (py_strip h)) then Some i
    else yeni_index_from (S i) hs
  end.

(** The first string attribute value holding a digit; "" when none. *)
Fixpoint first_digit_attr (attrs : list (pystr * attr_value)) : pystr :=
  match attrs with
  | [] => []
  | (_, AttrStr v) :: r => if found (re_search DIGIT_RE v) then v else first_digit_attr r
  | (_, AttrList _) :: r => first_digit_attr r
  end.

(** The number text of a row's "YENİ" cell, as the loop over the rows of a
    table computes it; [None] when the row is passed over before. *)
Definition row_number_text (yeni_idx : nat) (tr : snode L) : option pystr :=
  let row_text := get_text tr in
  if negb (found (re_search CUMHURIYET_RE row_text)) then None else
  let cells := soup_find_all L tr ["td"; "th"]%string in
  match nth_error cells yeni_idx with
  | None => None
  | Some yeni_cell =>
    let raw := get_text yeni_cell in
    let raw := match raw with [] => first_digit_attr (soup_attrs L yeni_cell) | _ => raw end in
    Some (match group1 (re_search CELL_NUMBER_RE raw) with
          | Some g => g
          | None => raw
          end)
  end.

(** The body of the loop over the rows of a table. *)
Definition table_row_value (yeni_idx : nat) (tr : snode L) : py (option decimal) :=
  match row_number_text yeni_idx tr with
  | None => ret None
  | Some num_txt =>
    match turkish_number_to_decimal num_txt with
    | Some val => ge <- dec_ge val DEC_1000 ;; ret (if ge then Some val else None)
    | None => ret None
    end
  end.

Fixpoint table_rows (yeni_idx : nat) (rows : list (snode L)) : py (option decimal) :=
  match rows with
  | [] => ret None
  | tr :: rs =>
    r <- table_row_value yeni_idx tr ;;
    match r with Some v => ret (Some v) | None => table_rows yeni_idx rs end
  end.

Definition table_value (table : snode L) : py (option decimal) :=
  match yeni_index_from 0 (header_texts table) with
  | None => ret None
  | Some yeni_idx =>
    let tbody := match soup_find L table "tbody" with Some b => b | None => table end in
    table_rows yeni_idx (soup_find_all L tbody ["tr"]%string)
  end.

Fixpoint tables_loop (tables : list (snode L)) : py (option decimal) :=
  match tables with
  | [] => ret None
  | t :: ts =>
    r <- table_value t ;;
    match r with Some v => ret (Some v) | None => tables_loop ts end
  end.

(** [parse_price_via_table(html)] *)
Definition parse_price_via_table (html : pystr) : py (option decimal) :=
  tables_loop (soup_find_all L (soup_parse L html) ["table"]%string).

(** *** parse_price_with_bs4 *)

(** [soup.find_all(string=re.compile(r"Cumhuriyet", re.IGNORECASE))] *)
Definition bs4_candidates (html : pystr) : list (snode L) :=
  filter (fun t => found (re_search CUMHURIYET_RE (soup_string_value L t)))
         (soup_strings L (soup_parse L html)).

(** The "YENİ" number of a text, normalized. *)
Definition yeni_value (ctx_text : pystr) : option decimal :=
  match group1 (re_search YENI_RE ctx_text) with
  | Some g => turkish_number_to_decimal g
  | None => None
  end.

(** The body of the loop over the text nodes: the enclosing row (or the
    parent), then the container's parent. *)
Definition bs4_node_value (text_node : snode L) : option decimal :=
  let container := match soup_find_parent_named L text_node "tr" with
                   | Some row => Some row
                   | None => soup_parent L text_node
                   end in
  match container with
  | None => None
  | Some container =>
    match yeni_value (get_text container) with
    | Some v => Some v
    | None =>
      match soup_parent L container with
      | Some parent => yeni_value (get_text parent)
      | None => None
      end
    end
  end.

Fixpoint bs4_loop (nodes : list (snode L)) : option decimal :=
  match nodes with
  | [] => None
  | n :: ns => match bs4_node_value n with Some v => Some v | None => bs4_loop ns end
  end.

(** [parse_price_with_bs4(html)] *)
Definition parse_price_with_bs4 (html : pystr) : option decimal :=
  bs4_loop (bs4_candidates html).

(** *** parse_price_with_regex *)

(** [parse_price_with_regex(html)] *)
Definition parse_price_with_regex (html : pystr) : option decimal :=
  match group1 (re_search FALLBACK_REGEX html) with
  | None => None
  | Some g => turkish_number_to_decimal g
  end.

(** *** parse_price_neighborhood *)

(** [BeautifulSoup(html[start:start+5000], "html.parser").get_text(" ", strip=True)] *)
Definition window_text (html : pystr) (start : nat) : pystr :=
  soup_get_text L (soup_parse L (firstn 5000 (skipn start html))).

(** The candidates of a window: the block after "YENİ", then every
    number-like block. *)
Definition window_candidates (wt : pystr) : list pystr :=
  match group1 (re_search YENI_BLOCK_RE wt) with Some g => [g] | None => [] end
  ++ re_findall NUMBER_BLOCK_RE wt.

(** The body of the loop over the candidates. *)
Definition accept_candidate (c : pystr) : py (option decimal) :=
  let c_clean := py_strip (replace_char 160 32 c) in
  if re_fullmatch ZEROS_RE c_clean then ret None else
  match turkish_number_to_decimal c_clean with
  | None => ret None
  | Some val => lt <- dec_lt val DEC_1000 ;; ret (if lt then None else Some val)
  end.

Fixpoint parse_candidates (cs : list pystr) : py (list decimal) :=
  match cs with
  | [] => ret []
  | c :: r =>
    o <- accept_candidate c ;;
    rest <- parse_candidates r ;;
    ret (match o with Some v => v :: rest | None => rest end)
  end.

(** [max(parsed)]: an item replaces the current maximum when greater. *)
Fixpoint max_loop (cur : decimal) (l : list decimal) : py decimal :=
  match l with
  | [] => ret cur
  | x :: r => gt <- dec_gt x cur ;; max_loop (if gt then x else cur) r
  end.

(** One window's result. *)
Definition window_value (wt : pystr) : py (option decimal) :=
  parsed <- parse_candidates (window_candidates wt) ;;
  match parsed with
  | [] => ret None
  | x :: r => best <- max_loop x r ;; ret (Some best)
  end.

Fixpoint windows_loop (html : pystr) (starts : list nat) : py (option decimal) :=
  match starts with
  | [] => ret None
  | st :: sts =>
    r <- window_value (window_text html st) ;;
    match r with Some v => ret (Some v) | None => windows_loop html sts end
  end.

(** [parse_price_neighborhood(html)]; the closing debug output does not
    change the result. *)
Definition parse_price_neighborhood (html : pystr) : py (option decimal) :=
  windows_loop html (map m_start (re_finditer CUMHURIYET_RE html)).

(** *** The extraction sequence of [main] *)

Inductive strategy := StructuredTable | TaggedText | RegexWindow | NeighborhoodScan.

(** Lines 311-324 of [main]: each strategy runs only while [price is None];
    the list records the strategies called, in order. *)
Definition extract_price (via_table with_bs4 with_regex neighborhood : pystr -> py (option decimal))
    (html : pystr) : list strategy * py (option decimal) :=
  match via_table html with
  | inr None =>
    match with_bs4 html with
    | inr None =>
      match with_regex html with
      | inr None => ([StructuredTable; TaggedText; RegexWindow; NeighborhoodScan], neighborhood html)
      | r => ([StructuredTable; TaggedText; RegexWindow], r)
      end
    | r => ([StructuredTable; TaggedText], r)
    end
  | r => ([StructuredTable], r)
  end.

(** The sequence with the script's four strategies. *)
Definition script_extract (html : pystr) : list strategy * py (option decimal) :=
  extract_price parse_price_via_table
                (fun h => ret (parse_price_with_bs4 h))
                (fun h => ret (parse_price_with_regex h))
                parse_price_neighborhood html.

(** ** The state file *)

(** A JSON value as [json.load] gives it; a float by the text [str] gives
    for it, a list or an object by its [str] as well. *)
Inductive json_val :=
| JInt (z : Z)
| JFloat (repr : pystr)
| JStr (s : pystr)
| JBool (b : bool)
| JNull
| JCompound (repr : pystr).

(** [state/last_price.json]: absent, unreadable (opening or [json.load]
    raises), a JSON value that is not an object, or an object with or
    without a "last_price" key. *)
Inductive state_file :=
| NoStateFile
| Unreadable
| JsonNotDict
| JsonDict (last_price : option json_val).

Definition json_str (v : json_val) : pystr :=
  match v with
  | JInt z => py_str_int z
  | JFloat r => r
  | JStr s => s
  | JBool b => pystr_of (if b then "True" else "False")
  | JNull => pystr_of "None"
  | JCompound r => r
  end.

(** [load_last_price()]: every exception is caught and gives [None]. *)
Definition load_last_price (f : state_file) : option decimal :=
  match f with
  | NoStateFile | Unreadable | JsonNotDict => None
  | JsonDict None | JsonDict (Some JNull) => None
  | JsonDict (Some v) => py_Decimal (json_str v)
  end.

(** ** A run of [main] *)

(** What a run does besides printing: the [notify_telegram] calls (the
    Notifier's send; whether the secrets are set and the request succeeds
    is the Notifier's business, and it raises nothing the script does not
    catch) and the writes of the state file, with the [last_price] and
    [updated_at] fields. *)
Inductive event :=
| Notify (text : pystr)
| WriteState (last_price : Z) (updated_at : pystr).

(** The events of a run so far, and its outcome. *)
Definition M (A : Type) := (list event * py A)%type.
Definition mret {A} (a : A) : M A := ([], inr a).
Definition mbind {A B} (m : M A) (k : A -> M B) : M B :=
  match m with
  | (ev, inl e) => (ev, inl e)
  | (ev, inr a) => let '(ev', r) := k a in (ev ++ ev', r)
  end.
Definition lift {A} (m : py A) : M A := ([], m).
Definition emit (e : event) : M unit := ([e], inr tt).
Notation "x <-- m ;; k" := (mbind m (fun x => k)) (at level 61, m at next level, right associativity).

(** The inputs of a run: what [fetch_html] returned, the state file, and
    the clock ([datetime.now(Europe/Istanbul)] formatted, its UTC offset in
    seconds, and [datetime.utcnow().isoformat()]). *)
Record env := {
  fetched : option pystr;
  state : state_file;
  istanbul_now : pystr;
  utc_offset_s : Z;
  utcnow_iso : pystr
}.

Definition pad2 (n : Z) : pystr := (if n <? 10 then [48] else []) ++ z_digits n.

(** The offset part of [_istanbul_now_str()]: [+HH:MM]; a zero offset is
    falsy and replaced by three hours. *)
Definition offset_str (offset_s : Z) : pystr :=
  let total_minutes := (if offset_s =? 0 then 3 * 3600 else offset_s) / 60 in
  let sign := if 0 <=? total_minutes then [43] else [45] in
  let t := Z.abs total_minutes in
  sign ++ pad2 (t / 60) ++ [58] ++ pad2 (t mod 60).

(** [build_message(old_price, new_price)] *)
Definition build_message (e : env) (old_price new_price : decimal) : py pystr :=
  o <- format_tl old_price ;;
  n <- format_tl new_price ;;
  ret (pystr_of "İZKO Cumhuriyet Altını fiyatı değişti!" ++ [10]
       ++ pystr_of "Eski: " ++ o ++ pystr_of " TL" ++ [10]
       ++ pystr_of "Yeni: " ++ n ++ pystr_of " TL" ++ [10]
       ++ pystr_of "Kaynak: izko.org.tr" ++ [10]
       ++ pystr_of "Zaman: " ++ istanbul_now e ++ pystr_of " (" ++ offset_str (utc_offset_s e)
       ++ pystr_of ")").

(** [save_last_price(price)] *)
Definition save_last_price (e : env) (price : decimal) : M unit :=
  q <-- lift (dec_quantize1 price) ;;
  lp <-- lift (dec_to_int q) ;;
  emit (WriteState lp (utcnow_iso e ++ pystr_of "Z")).

(** [main()]: the outcome is the exit code, or the exception that ends
    the process. The arguments of the [print] calls are evaluated, since
    [_format_tl] can raise. *)
Definition main (e : env) : M Z :=
  match fetched e with
  | None | Some [] => mret 0
  | Some html =>
    price <-- lift (snd (script_extract html)) ;;
    match price with
    | None => mret 0
    | Some price =>
      price <-- lift (dec_quantize1 price) ;;
      match load_last_price (state e) with
      | None =>
        _ <-- lift (format_tl price) ;;
        _ <-- save_last_price e price ;;
        mret 0
      | Some last =>
        ne <-- lift (dec_ne price last) ;;
        if ne then
          _ <-- lift (format_tl last) ;;
          _ <-- lift (format_tl price) ;;
          msg <-- lift (build_message e last price) ;;
          _ <-- emit (Notify msg) ;;
          _ <-- save_last_price e price ;;
          mret 0
        else
          _ <-- lift (format_tl price) ;;
          mret 0
      end
    end
  end.

(** ** Reference definitions for the properties *)

(** [s] with only its first [a] replaced by [b]. *)
Fixpoint replace_first (a b : Z) (s : pystr) : pystr :=
  match s with
  | [] => []
  | c :: r => if c =? a then b :: r else c :: replace_first a b r
  end.

(** The cleaning steps in the order the specification lists them (strip,
    non-breaking spaces to spaces, spaces removed, '.' removed, the
    remaining ',' to a point), read with a single ',' turned into the point,
    then [Decimal]. *)
Definition spec_number_normalizer (num_text : pystr) : option decimal :=
  py_Decimal (replace_first 44 46 (remove_char 46 (remove_char 32 (replace_char 160 32 (py_strip num_text))))).

(** [a <= b] numerically; false when a NaN takes part. *)
Definition dec_leb (a b : decimal) : bool :=
  match dec_cmp a b with Some Lt | Some Eq => true | _ => false end.

(** The value of a finite [Decimal] rounded to an integer, ties to even. *)
Definition dec_round_int (d : decimal) : option Z :=
  match d with
  | Dfin neg c e =>
    Some (sgnZ neg (if 0 <=? e then Z.of_N c * 10 ^ e else round_half_even_div (Z.of_N c) (10 ^ (- e))))
  | _ => None
  end.

(** [Decimal(n)] for an [int] [n]. *)
Definition dec_of_Z (n : Z) : decimal := Dfin (n <? 0) (Z.to_N (Z.abs n)) 0.

(** The events of a failed attempt [k] of [fetch_html] with
    [max_retries] attempts: the request, then the sleep of [2 ^ (k - 1)]
    seconds unless it was the last. *)
Definition attempt_events (max_retries k : nat) : list fetch_event :=
  Get k :: (if Nat.ltb k max_retries then [Sleep (2 ^ Z.of_nat (k - 1))] else []).

(** The events of a failed attempt [j] when the attempts started at [a]
    with a backoff of [b] seconds. *)
Definition failed_events (n a : nat) (b : Z) (j : nat) : list fetch_event :=
  Get j :: (if Nat.ltb j n then [Sleep (b * 2 ^ Z.of_nat (j - a))] else []).

(** Reading back a [+HH:MM] offset as minutes. *)
Definition read_offset (s : pystr) : option Z :=
  match s with
  | [sg; h1; h2; col; m1; m2] =>
    if is_digit h1 && is_digit h2 && (col =? 58) && is_digit m1 && is_digit m2
       && ((sg =? 43) || (sg =? 45)) then
      let v := ((h1 - 48) * 10 + (h2 - 48)) * 60 + (m1 - 48) * 10 + (m2 - 48) in
      Some (if sg =? 45 then - v else v)
    else None
  | _ => None
  end.

(** Regular-expression items that open or close no group. *)
Definition plain_item (it : re_item) : bool :=
  match it with ROpen | RClose => false | _ => true end.

(** Every character the item can consume satisfies [q]. *)
Definition item_within (q : Z -> bool) (it : re_item) : Prop :=
  match it with
  | RChar p | RRep p _ _ _ => forall c, p c = true -> q c = true
  | REnd => True
  | ROpen | RClose => False
  end.

(** The inputs of a run on a given page and state file, at a fixed time. *)
Definition sample_env (page : option pystr) (st : state_file) : env := {|
  fetched := page;
  state := st;
  istanbul_now := pystr_of "2026-10-18 12:00:00";
  utc_offset_s := 10800;
  utcnow_iso := pystr_of "2026-10-18T09:00:00.000000"
|}.

(** Pages of the concrete runs: markup-free text, as [plain_soup] reads it. *)
Definition page_small : pystr := pystr_of "Cumhuriyet YENI 5".
Definition page_first_unparsable : pystr := pystr_of "Cumhuriyet YENI . Cumhuriyet YENI 30000".
Definition page_two_numbers : pystr := pystr_of "Cumhuriyet YENI 29.650 ESKI 31.000".
Definition page_29650 : pystr := pystr_of "Cumhuriyet YENI 29.650".
Definition page_29800 : pystr := pystr_of "Cumhuriyet YENI 29.800".
Definition page_29650_50 : pystr := pystr_of "Cumhuriyet YENI 29.650,50".
Definition page_29650_5 : pystr := pystr_of "Cumhuriyet YENI 29.650,5".
Definition page_29650_4 : pystr := pystr_of "Cumhuriyet YENI 29.650,4".
Definition page_no_marker : pystr := pystr_of "nothing here".

Definition env_change : env := sample_env (Some page_29800) (JsonDict (Some (JInt 29650))).
Definition env_first : env := sample_env (Some page_29800) NoStateFile.
Definition env_first_fraction : env := sample_env (Some page_29650_50) NoStateFile.
Definition env_equal_fraction : env :=
  sample_env (Some page_29650_5) (JsonDict (Some (JFloat (pystr_of "29650.5")))).
Definition env_same : env := sample_env (Some page_29650) (JsonDict (Some (JInt 29650))).
Definition env_no_marker : env := sample_env (Some page_no_marker) NoStateFile.
Definition env_round_same : env := sample_env (Some page_29650_4) (JsonDict (Some (JInt 29650))).
(** A rerun on the page of [env_first] once its record is stored; a stored
    "NaN"; a page whose price has 29 digits. *)
Definition env_rerun : env := sample_env (Some page_29800) (JsonDict (Some (JInt 29800))).
Definition env_nan_state : env := sample_env (Some page_29800) (JsonDict (Some (JStr (pystr_of "NaN")))).
Definition page_huge : pystr := pystr_of "Cumhuriyet YENI 10000000000000000000000000000".
Definition env_huge : env := sample_env (Some page_huge) NoStateFile.

(** Answers to the requests of [fetch_html]: a 503 with an empty body on the
    first attempt and a page afterwards; a failing connection every time. *)
Definition get_second_ok (k : nat) : response :=
  if Nat.eqb k 1 then Response 503 [] else Response 200 (pystr_of "<html>").
Definition get_never_ok (_ : nat) : response := RequestException.

(** ** Properties *)

Lemma bind_ret_r {A} (m : py A) : (x <- m ;; ret x) = m.
Proof. destruct m; reflexivity. Qed.

(** C3: the extraction sequence runs Structured-Table, Tagged-Text,
    Regex-Window and Neighborhood-Scan in this order, calls no strategy after
    the first one that finds a value, and finds nothing exactly when all four
    find nothing. *)
Theorem script_extract_order (html : pystr) :
  (forall v, parse_price_via_table html = inr (Some v) ->
     script_extract html = ([StructuredTable], inr (Some v))) /\
  (parse_price_via_table html = inr None ->
   forall v, parse_price_with_bs4 html = Some v ->
     script_extract html = ([StructuredTable; TaggedText], inr (Some v))) /\
  (parse_price_via_table html = inr None -> parse_price_with_bs4 html = None ->
   forall v, parse_price_with_regex html = Some v ->
     script_extract html = ([StructuredTable; TaggedText; RegexWindow], inr (Some v))) /\
  (parse_price_via_table html = inr None -> parse_price_with_bs4 html = None ->
   parse_price_with_regex html = None ->
     script_extract html = ([StructuredTable; TaggedText; RegexWindow; NeighborhoodScan],
                            parse_price_neighborhood html)) /\
  (snd (script_extract html) = inr None <->
     parse_price_via_table html = inr None /\ parse_price_with_bs4 html = None /\
     parse_price_with_regex html = None /\ parse_price_neighborhood html = inr None).
Proof.
  unfold script_extract, extract_price, ret.
  destruct (parse_price_via_table html) as [ex|[v|]];
    [| | destruct (parse_price_with_bs4 html) as [v|];
         [| destruct (parse_price_with_regex html) as [v|]]];
    simpl; intuition congruence.
Qed.

(** C9: when the fetch gives nothing or an empty page, or when no strategy
    finds a value, a run notifies nothing, writes nothing and exits with 0. *)
Theorem main_without_price (e : env) :
  (fetched e = None \/ fetched e = Some [] \/
   exists html, fetched e = Some html /\
     parse_price_via_table html = inr None /\ parse_price_with_bs4 html = None /\
     parse_price_with_regex html = None /\ parse_price_neighborhood html = inr None) ->
  main e = ([], inr 0).
Proof.
  intros [H | [H | (html & H & Hs)]]; unfold main; rewrite H; try reflexivity.
  destruct html as [|c r]; [reflexivity|].
  apply (proj2 (proj2 (proj2 (proj2 (script_extract_order (c :: r)))))) in Hs.
  simpl. rewrite Hs. reflexivity.
Qed.

(** C5: Structured-Table and Neighborhood-Scan take a candidate whose number
    does not normalize for no match and go on with the next one; Tagged-Text
    normalizes only the first "YENİ" match of a text and, when that one does
    not normalize, goes on with the container's parent, then the next text
    node, never with a later match of the same text; Regex-Window normalizes
    only the first match of its pattern and finds nothing when that one does
    not normalize. *)
Theorem unparsable_candidates (html : pystr) :
  (forall yeni_idx tr rows num_txt,
     row_number_text yeni_idx tr = Some num_txt -> turkish_number_to_decimal num_txt = None ->
     table_rows yeni_idx (tr :: rows) = table_rows yeni_idx rows) /\
  (forall t g, group1 (re_search YENI_RE t) = Some g -> turkish_number_to_decimal g = None ->
     yeni_value t = None) /\
  (forall n c,
     match soup_find_parent_named L n "tr" with Some row => Some row | None => soup_parent L n end = Some c ->
     yeni_value (get_text c) = None ->
     bs4_node_value n = match soup_parent L c with Some p => yeni_value (get_text p) | None => None end) /\
  (forall n ns, bs4_node_value n = None -> bs4_loop (n :: ns) = bs4_loop ns) /\
  (forall c cs, turkish_number_to_decimal (py_strip (replace_char 160 32 c)) = None ->
     parse_candidates (c :: cs) = parse_candidates cs) /\
  (forall g, group1 (re_search FALLBACK_REGEX html) = Some g -> turkish_number_to_decimal g = None ->
     parse_price_with_regex html = None).
Proof.
  repeat split.
  - intros yeni_idx tr rows num_txt H1 H2. simpl.
    unfold table_row_value. rewrite H1, H2. reflexivity.
  - intros t g H1 H2. unfold yeni_value. rewrite H1. exact H2.
  - intros n c H1 H2. unfold bs4_node_value. rewrite H1, H2. reflexivity.
  - intros n ns H. simpl. rewrite H. reflexivity.
  - intros c cs H. simpl. unfold accept_candidate. rewrite H.
    destruct (re_fullmatch ZEROS_RE _); simpl; apply bind_ret_r.
  - intros g H1 H2. unfold parse_price_with_regex. rewrite H1. exact H2.
Qed.

Lemma ext_cmp_antisym x y : ext_cmp x y = CompOpp (ext_cmp y x).
Proof. destruct x, y; simpl; try reflexivity. symmetry; apply Qcompare_antisym. Qed.

Lemma ext_cmp_refl x : ext_cmp x x = Eq.
Proof. destruct x; simpl; try reflexivity. apply Qeq_alt, Qeq_refl. Qed.

Lemma ext_le_trans x y z : ext_cmp x y <> Gt -> ext_cmp y z <> Gt -> ext_cmp x z <> Gt.
Proof.
  destruct x, y, z; simpl; try congruence.
  rewrite <- !Qle_alt. apply Qle_trans.
Qed.

Lemma dec_cmp_antisym a b : dec_cmp a b = option_map CompOpp (dec_cmp b a).
Proof.
  unfold dec_cmp. destruct (ext_of a), (ext_of b); simpl; try reflexivity.
  rewrite ext_cmp_antisym. reflexivity.
Qed.

Lemma dec_le_ext a b :
  dec_leb a b = true <-> exists x y, ext_of a = Some x /\ ext_of b = Some y /\ ext_cmp x y <> Gt.
Proof.
  unfold dec_leb, dec_cmp. destruct (ext_of a) as [x|], (ext_of b) as [y|]; split;
    try discriminate; try (intros (? & ? & ? & ? & _); discriminate).
  - intros H. exists x, y. repeat split. destruct (ext_cmp x y); congruence.
  - intros (x' & y' & Hx & Hy & H). injection Hx as <-. injection Hy as <-.
    destruct (ext_cmp x y); congruence.
Qed.

Lemma dec_le_trans a b c : dec_leb a b = true -> dec_leb b c = true -> dec_leb a c = true.
Proof.
  rewrite !dec_le_ext. intros (x & y & Hx & Hy & H1) (y' & z & Hy' & Hz & H2).
  rewrite Hy in Hy'. injection Hy' as <-.
  exists x, z. repeat split; auto. eapply ext_le_trans; eauto.
Qed.

Lemma dec_le_refl a : ext_of a <> None -> dec_leb a a = true.
Proof.
  intros H. apply dec_le_ext. destruct (ext_of a) as [x|]; [|congruence].
  exists x, x. rewrite ext_cmp_refl. repeat split; congruence.
Qed.

Lemma dec_le_defined a b : dec_leb a b = true -> ext_of a <> None /\ ext_of b <> None.
Proof. rewrite dec_le_ext. intros (x & y & -> & -> & _). split; congruence. Qed.

Lemma dec_gt_inr x y g : dec_gt x y = inr g ->
  if g then dec_leb y x = true else dec_leb x y = true.
Proof.
  unfold dec_gt, dec_leb, ret, raise. rewrite (dec_cmp_antisym y x).
  destruct (dec_cmp x y) as [[| |]|]; simpl; intros H; try discriminate;
    injection H as <-; reflexivity.
Qed.

Lemma accept_candidate_min c v : accept_candidate c = inr (Some v) -> dec_leb DEC_1000 v = true.
Proof.
  unfold accept_candidate.
  destruct (re_fullmatch ZEROS_RE _); [discriminate|].
  destruct (turkish_number_to_decimal _) as [val|]; [|discriminate].
  unfold dec_lt, ret, raise, bind.
  destruct (dec_cmp val DEC_1000) as [cmp|] eqn:Hc; [|discriminate].
  destruct cmp; intros H; try discriminate; injection H as <-;
    unfold dec_leb; rewrite dec_cmp_antisym, Hc; reflexivity.
Qed.

Lemma parse_candidates_min cs ps : parse_candidates cs = inr ps ->
  forall x, In x ps -> dec_leb DEC_1000 x = true.
Proof.
  revert ps. induction cs as [|c cs IH]; simpl; intros ps H.
  - injection H as <-. intros x [].
  - destruct (accept_candidate c) as [ex|o] eqn:Hc; [discriminate|]. simpl in H.
    destruct (parse_candidates cs) as [ex|rest]; [discriminate|]. simpl in H.
    injection H as <-. intros x Hx.
    destruct o as [v|]; [destruct Hx as [<-|Hx]|].
    + eapply accept_candidate_min; eauto.
    + apply (IH rest eq_refl x Hx).
    + apply (IH rest eq_refl x Hx).
Qed.

Lemma max_loop_spec l : forall cur b, max_loop cur l = inr b -> ext_of cur <> None ->
  (b = cur \/ In b l) /\ dec_leb cur b = true /\ (forall x, In x l -> dec_leb x b = true).
Proof.
  induction l as [|x l IH]; simpl; intros cur b H Hcur.
  - injection H as <-. split; [left; reflexivity|]. split; [apply dec_le_refl; auto|].
    intros _ [].
  - destruct (dec_gt x cur) as [ex|g] eqn:G; [discriminate|]. simpl in H.
    apply dec_gt_inr in G. destruct g.
    + destruct (IH x b H (proj2 (dec_le_defined _ _ G))) as (Hb & Hxb & Hl).
      repeat split.
      * destruct Hb; auto.
      * eapply dec_le_trans; eauto.
      * intros y [<-|Hy]; auto.
    + destruct (IH cur b H Hcur) as (Hb & Hcb & Hl).
      repeat split.
      * destruct Hb; auto.
      * exact Hcb.
      * intros y [<-|Hy]; auto. eapply dec_le_trans; eauto.
Qed.

Lemma window_value_max wt best : window_value wt = inr (Some best) ->
  exists parsed, parse_candidates (window_candidates wt) = inr parsed /\
    In best parsed /\ (forall x, In x parsed -> dec_leb x best = true).
Proof.
  unfold window_value.
  destruct (parse_candidates (window_candidates wt)) as [ex|parsed] eqn:Hp; [discriminate|].
  simpl. destruct parsed as [|x r]; [discriminate|].
  destruct (max_loop x r) as [ex|b] eqn:Hm; [discriminate|]. simpl. intros H.
  injection H as <-. exists (x :: r). split; [reflexivity|].
  assert (Hx : ext_of x <> None).
  { apply (dec_le_defined DEC_1000 x). apply (parse_candidates_min _ _ Hp). left; reflexivity. }
  destruct (max_loop_spec r x b Hm Hx) as (Hb & Hxb & Hl). split.
  - destruct Hb as [->|Hb]; [left|right]; auto.
  - intros y [<-|Hy]; auto.
Qed.

Lemma anchored_candidate_in wt g a parsed :
  group1 (re_search YENI_BLOCK_RE wt) = Some g -> accept_candidate g = inr (Some a) ->
  parse_candidates (window_candidates wt) = inr parsed -> In a parsed.
Proof.
  intros Hg Ha. unfold window_candidates. rewrite Hg. simpl. rewrite Ha. simpl.
  destruct (parse_candidates _); simpl; intros H; [discriminate|].
  injection H as <-. left; reflexivity.
Qed.

Lemma windows_loop_first html sts v : windows_loop html sts = inr (Some v) ->
  exists pre st post, sts = pre ++ st :: post /\
    (forall s, In s pre -> window_value (window_text html s) = inr None) /\
    window_value (window_text html st) = inr (Some v).
Proof.
  induction sts as [|st sts IH]; simpl; [discriminate|].
  destruct (window_value (window_text html st)) as [ex|[w|]] eqn:Hw; simpl; intros H;
    [discriminate| |].
  - injection H as <-. exists [], st, sts. repeat split; auto. intros _ [].
  - destruct (IH H) as (pre & st' & post & -> & Hpre & Hst).
    exists (st :: pre), st', post. repeat split; auto.
    intros s [<-|Hs]; auto.
Qed.

(** C2: Neighborhood-Scan gives the value of the first marker window that
    has an accepted candidate, and that value is the largest accepted
    candidate of the window; the candidate anchored after "YENİ", when
    accepted, is one of the candidates compared, not one preferred. *)
Theorem neighborhood_window_max (html : pystr) (v : decimal) :
  parse_price_neighborhood html = inr (Some v) ->
  exists pre st post parsed,
    map m_start (re_finditer CUMHURIYET_RE html) = pre ++ st :: post /\
    (forall s, In s pre -> window_value (window_text html s) = inr None) /\
    parse_candidates (window_candidates (window_text html st)) = inr parsed /\
    In v parsed /\
    (forall x, In x parsed -> dec_leb x v = true) /\
    (forall g a, group1 (re_search YENI_BLOCK_RE (window_text html st)) = Some g ->
       accept_candidate g = inr (Some a) -> In a parsed /\ dec_leb a v = true).
Proof.
  intros H. destruct (windows_loop_first _ _ _ H) as (pre & st & post & Hs & Hpre & Hst).
  destruct (window_value_max _ _ Hst) as (parsed & Hp & Hin & Hmax).
  exists pre, st, post, parsed. repeat split; auto.
  - eapply anchored_candidate_in; eauto.
  - apply Hmax. eapply anchored_candidate_in; eauto.
Qed.

(** *** Counting characters through [Decimal(str)] *)

Lemma cnt_cons_ne (c x : Z) (l : pystr) : c <> x -> count_occ Z.eq_dec (c :: l) x = count_occ Z.eq_dec l x.
Proof. intros H. simpl. destruct (Z.eq_dec c x); congruence. Qed.

Lemma lstrip_ws_cnt s x : py_isspace x = false -> count_occ Z.eq_dec (lstrip_ws s) x = count_occ Z.eq_dec s x.
Proof.
  intros Hx. induction s as [|c r IH]; simpl; [reflexivity|].
  destruct (py_isspace c) eqn:Hc; [|reflexivity].
  rewrite IH. destruct (Z.eq_dec c x); congruence.
Qed.

Lemma py_strip_cnt s x : py_isspace x = false -> count_occ Z.eq_dec (py_strip s) x = count_occ Z.eq_dec s x.
Proof.
  intros Hx. unfold py_strip.
  rewrite count_occ_rev, lstrip_ws_cnt, count_occ_rev, lstrip_ws_cnt; auto.
Qed.

Lemma numeric_as_ascii_cnt u a x : numeric_as_ascii u = Some a ->
  0 < x < 48 -> x <> 32 -> x <> 95 -> count_occ Z.eq_dec a x = count_occ Z.eq_dec u x.
Proof.
  revert a. induction u as [|ch r IH]; intros a H Hx H32 H95; cbn [numeric_as_ascii] in H.
  - injection H as <-. reflexivity.
  - destruct (Z.eqb_spec ch 95) as [->|H1].
    + rewrite cnt_cons_ne by congruence. apply IH; auto.
    + destruct ((0 <? ch) && (ch <=? 127)) eqn:H2.
      * destruct (numeric_as_ascii r) as [a'|] eqn:Hr; [|discriminate].
        injection H as <-. simpl. rewrite (IH a' eq_refl Hx H32 H95). reflexivity.
      * assert (ch <> x).
        { intros ->. apply andb_false_iff in H2. destruct H2 as [H2|H2];
            [apply Z.ltb_nlt in H2 | apply Z.leb_nle in H2]; lia. }
        rewrite cnt_cons_ne by auto.
        destruct (py_isspace ch).
        -- destruct (numeric_as_ascii r) as [a'|] eqn:Hr; [|discriminate].
           injection H as <-. rewrite cnt_cons_ne by congruence. apply IH; auto.
        -- destruct (unicode_decimal ch) as [dg|]; [|discriminate].
           remember (48 + Z.of_nat dg) as dd eqn:Hdd.
           destruct (numeric_as_ascii r) as [a'|] eqn:Hr; [|discriminate].
           injection H as <-. rewrite cnt_cons_ne by lia. apply IH; auto.
Qed.

Lemma span_digits_spec s : forall ds rest, span_digits s = (ds, rest) ->
  s = ds ++ rest /\ forall x, x < 48 -> count_occ Z.eq_dec ds x = 0%nat.
Proof.
  induction s as [|c r IH]; simpl; intros ds rest H.
  - injection H as <- <-. split; reflexivity.
  - destruct (is_digit c) eqn:Hd.
    + destruct (span_digits r) as [ds' rest'] eqn:Hr. injection H as <- <-.
      destruct (IH ds' rest' eq_refl) as [-> Hc]. split; [reflexivity|].
      intros x Hx. unfold is_digit in Hd. apply andb_true_iff in Hd.
      destruct Hd as [Hd _]. apply Z.leb_le in Hd.
      rewrite cnt_cons_ne by lia. auto.
    + injection H as <- <-. split; [reflexivity|]. reflexivity.
Qed.

Lemma parse_sign_cnt s neg s1 x : parse_sign s = (neg, s1) -> x <> 43 -> x <> 45 ->
  count_occ Z.eq_dec s x = count_occ Z.eq_dec s1 x.
Proof.
  unfold parse_sign. destruct s as [|c r]; intros H H43 H45.
  - injection H as _ <-. reflexivity.
  - destruct (Z.eqb_spec c 43) as [->|]; [injection H as _ <-; apply cnt_cons_ne; congruence|].
    destruct (Z.eqb_spec c 45) as [->|]; [injection H as _ <-; apply cnt_cons_ne; congruence|].
    injection H as _ <-. reflexivity.
Qed.

Lemma parse_exponent_cnt s e x : parse_exponent s = Some e -> x < 48 -> x <> 43 -> x <> 45 ->
  count_occ Z.eq_dec s x = 0%nat.
Proof.
  unfold parse_exponent. destruct (parse_sign s) as [neg s1] eqn:Hs. intros H Hx H43 H45.
  rewrite (parse_sign_cnt _ _ _ _ Hs H43 H45).
  destruct (span_digits s1) as [ds rest] eqn:Hd.
  destruct (span_digits_spec _ _ _ Hd) as [-> Hc].
  destruct ds; [discriminate|]. destruct rest; [|discriminate].
  rewrite app_nil_r. apply Hc; auto.
Qed.

Lemma parse_payload_cnt p n x : parse_payload p = Some n -> x < 48 -> count_occ Z.eq_dec p x = 0%nat.
Proof.
  unfold parse_payload. destruct (span_digits p) as [ds rest] eqn:Hd. intros H Hx.
  destruct (span_digits_spec _ _ _ Hd) as [-> Hc].
  destruct rest; [|discriminate]. rewrite app_nil_r. auto.
Qed.

Lemma prefix_ci_cnt w : forall s p, prefix_ci w s = Some p -> forallb (Z.leb 80) w = true ->
  forall x, x < 48 -> count_occ Z.eq_dec s x = count_occ Z.eq_dec p x.
Proof.
  induction w as [|a w IH]; simpl; intros s p H Hw x Hx.
  - injection H as <-. reflexivity.
  - destruct s as [|c s]; [discriminate|].
    apply andb_true_iff in Hw. destruct Hw as [Ha Hw]. apply Z.leb_le in Ha.
    destruct ((c =? a) || (c + 32 =? a)) eqn:Hc; [|discriminate].
    apply orb_true_iff in Hc.
    assert (c <> x) by (destruct Hc as [Hc|Hc]; apply Z.eqb_eq in Hc; lia).
    rewrite cnt_cons_ne by auto. eapply IH; eauto.
Qed.

Lemma exponent_part_cnt s4 e x :
  match s4 with
  | [] => Some 0
  | c :: s5 => if (c =? 101) || (c =? 69) then parse_exponent s5 else None
  end = Some e -> x < 48 -> x <> 43 -> x <> 45 -> count_occ Z.eq_dec s4 x = 0%nat.
Proof.
  destruct s4 as [|c s5]; intros H Hx H43 H45; [reflexivity|].
  destruct ((c =? 101) || (c =? 69)) eqn:Hc; [|discriminate].
  assert (c <> x) by (apply orb_true_iff in Hc; destruct Hc as [Hc|Hc]; apply Z.eqb_eq in Hc; lia).
  rewrite cnt_cons_ne by auto. eapply parse_exponent_cnt; eauto.
Qed.

(** A string [Decimal] accepts holds no ',' and at most one '.'. *)
Lemma mpd_parse_cnt a d : mpd_parse a = Some d -> count_occ Z.eq_dec a 44 = 0%nat /\ Nat.le (count_occ Z.eq_dec a 46) 1.
Proof.
  unfold mpd_parse. destruct (parse_sign a) as [neg s1] eqn:Hs. intros H.
  rewrite !(parse_sign_cnt _ _ _ _ Hs) by lia.
  destruct (prefix_ci (pystr_of "nan") s1) as [p|] eqn:Hnan.
  { destruct (parse_payload p) eqn:Hp; [|discriminate].
    rewrite !(prefix_ci_cnt _ _ _ Hnan eq_refl) by lia.
    rewrite !(parse_payload_cnt _ _ _ Hp) by lia. lia. }
  destruct (prefix_ci (pystr_of "snan") s1) as [p|] eqn:Hsnan.
  { destruct (parse_payload p) eqn:Hp; [|discriminate].
    rewrite !(prefix_ci_cnt _ _ _ Hsnan eq_refl) by lia.
    rewrite !(parse_payload_cnt _ _ _ Hp) by lia. lia. }
  destruct (prefix_ci (pystr_of "inf") s1) as [p|] eqn:Hinf.
  { rewrite !(prefix_ci_cnt _ _ _ Hinf eq_refl) by lia.
    destruct p as [|c p]; [simpl; lia|].
    destruct (prefix_ci (pystr_of "inity") (c :: p)) as [[|]|] eqn:Hity; try discriminate.
    rewrite !(prefix_ci_cnt _ _ _ Hity eq_refl) by lia. simpl; lia. }
  destruct (span_digits s1) as [ids s2] eqn:H1.
  destruct (span_digits_spec _ _ _ H1) as [-> Hids].
  rewrite !count_occ_app, !Hids by lia.
  destruct s2 as [|c s3]; [simpl; lia|].
  destruct (Z.eqb_spec c 46) as [->|Hc].
  - destruct (span_digits s3) as [fds s4] eqn:H3.
    destruct (span_digits_spec _ _ _ H3) as [-> Hfds].
    destruct (ids ++ fds); [discriminate|].
    destruct (match s4 with
              | [] => Some 0
              | c :: s5 => if (c =? 101) || (c =? 69) then parse_exponent s5 else None
              end) as [e|] eqn:He; [|discriminate].
    rewrite cnt_cons_ne by lia. simpl. destruct (Z.eq_dec 46 46); [|congruence].
    rewrite !count_occ_app, !Hfds by lia.
    rewrite !(exponent_part_cnt _ _ _ He) by lia. lia.
  - destruct (ids ++ []); [discriminate|].
    destruct (match c :: s3 with
              | [] => Some 0
              | c :: s5 => if (c =? 101) || (c =? 69) then parse_exponent s5 else None
              end) as [e|] eqn:He; [|discriminate].
    rewrite !(exponent_part_cnt (c :: s3) _ _ He) by lia. lia.
Qed.

Lemma py_Decimal_cnt u d : py_Decimal u = Some d -> count_occ Z.eq_dec u 44 = 0%nat /\ Nat.le (count_occ Z.eq_dec u 46) 1.
Proof.
  unfold py_Decimal. destruct (numeric_as_ascii (py_strip u)) as [a|] eqn:Ha; [|discriminate].
  intros H. apply mpd_parse_cnt in H.
  rewrite (numeric_as_ascii_cnt _ _ 44 Ha), (numeric_as_ascii_cnt _ _ 46 Ha) in H by lia.
  rewrite !py_strip_cnt in H by reflexivity. exact H.
Qed.

Lemma replace_char_notin a b s : ~ In a s -> replace_char a b s = s.
Proof.
  induction s as [|c r IH]; simpl; intros H; [reflexivity|].
  destruct (Z.eqb_spec c a); [exfalso; apply H; left; assumption|].
  f_equal. apply IH. intros Hr. apply H. right. exact Hr.
Qed.

Lemma replace_first_notin a b s : ~ In a s -> replace_first a b s = s.
Proof.
  induction s as [|c r IH]; simpl; intros H; [reflexivity|].
  destruct (Z.eqb_spec c a); [exfalso; apply H; left; assumption|].
  f_equal. apply IH. intros Hr. apply H. right. exact Hr.
Qed.

Lemma split_first (a : Z) s : In a s -> exists x y, s = x ++ a :: y /\ ~ In a x.
Proof.
  induction s as [|c r IH]; simpl; [intros []|]. intros H.
  destruct (Z.eq_dec c a) as [->|Hne].
  - exists [], r. split; [reflexivity|]. intros [].
  - destruct H as [H|H]; [congruence|].
    destruct (IH H) as (x & y & -> & Hx). exists (c :: x), y. split; [reflexivity|].
    simpl. intros [H'|H']; auto.
Qed.

Lemma replace_first_split a b x y : ~ In a x -> replace_first a b (x ++ a :: y) = x ++ b :: y.
Proof.
  induction x as [|c r IH]; simpl; intros H.
  - rewrite Z.eqb_refl. reflexivity.
  - destruct (Z.eqb_spec c a); [exfalso; apply H; left; assumption|].
  f_equal. apply IH. intros Hr. apply H. right. exact Hr.
Qed.

(** Turning every ',' or only the first one into '.' makes no difference
    to [Decimal]: a second ',' makes both strings invalid. *)
Lemma py_Decimal_replace_first t :
  py_Decimal (replace_char 44 46 t) = py_Decimal (replace_first 44 46 t).
Proof using unicode_decimal.
  destruct (in_dec Z.eq_dec 44 t) as [Hin|Hnin].
  - destruct (split_first _ _ Hin) as (x & y & -> & Hx).
    rewrite replace_first_split by exact Hx.
    unfold replace_char at 1. rewrite map_app. cbn [map]. rewrite Z.eqb_refl.
    fold (replace_char 44 46 x). fold (replace_char 44 46 y).
    rewrite (replace_char_notin _ _ x Hx).
    destruct (in_dec Z.eq_dec 44 y) as [Hy|Hy].
    + destruct (py_Decimal (x ++ 46 :: replace_char 44 46 y)) as [d|] eqn:H1.
      { apply py_Decimal_cnt in H1. destruct H1 as [_ H1].
        rewrite count_occ_app in H1. simpl in H1.
        destruct (Z.eq_dec 46 46); [|congruence].
        assert (In 46 (replace_char 44 46 y)).
        { unfold replace_char. apply in_map_iff. exists 44. rewrite Z.eqb_refl. auto. }
        apply (count_occ_In Z.eq_dec) in H. lia. }
      destruct (py_Decimal (x ++ 46 :: y)) as [d|] eqn:H2; [|reflexivity].
      apply py_Decimal_cnt in H2. destruct H2 as [H2 _].
      apply (count_occ_In Z.eq_dec) in Hy. rewrite count_occ_app in H2.
      rewrite cnt_cons_ne in H2 by lia. lia.
    + rewrite replace_char_notin by exact Hy. reflexivity.
  - rewrite replace_char_notin, replace_first_notin by exact Hnin. reflexivity.
Qed.

(** C4: the number normalizer strips, turns non-breaking spaces into
    spaces, removes the spaces, then the '.', turns the ',' into the
    decimal point and gives [Decimal] of the result, [None] when that is
    not a number; "29.650,00" gives 29650.00, "1.234" 1234 and "500" 500. *)
Theorem turkish_number_to_decimal_steps (num_text : pystr) :
  turkish_number_to_decimal num_text = spec_number_normalizer num_text /\
  turkish_number_to_decimal (pystr_of "29.650,00") = Some (Dfin false 2965000 (-2)) /\
  turkish_number_to_decimal (pystr_of "1.234") = Some (Dfin false 1234 0) /\
  turkish_number_to_decimal (pystr_of "500") = Some (Dfin false 500 0).
Proof.
  split; [|split; [|split]]; try reflexivity.
  unfold turkish_number_to_decimal, spec_number_normalizer.
  apply py_Decimal_replace_first.
Qed.

(** *** Rounding to units *)

Ltac fold_prec := change (Z.pow_pos 10 28) with (10 ^ DEFAULT_PREC) in *.

Lemma round_half_even_div_nonneg c m : 0 <= c -> 0 < m -> 0 <= round_half_even_div c m.
Proof.
  intros Hc Hm. unfold round_half_even_div.
  assert (0 <= c / m) by (apply Z.div_pos; lia).
  destruct (2 * (c mod m) ?= m); [destruct (Z.even (c / m))|..]; lia.
Qed.

Lemma round_half_even_div_exact k m : 0 < m -> round_half_even_div (k * m) m = k.
Proof.
  intros Hm. unfold round_half_even_div.
  rewrite Z.div_mul, Z_mod_mult by lia.
  replace (2 * 0) with 0 by lia. destruct m; try lia. reflexivity.
Qed.

Lemma quant_coef_nonneg c e :
  0 <= (if 0 <=? e then Z.of_N c * 10 ^ e else round_half_even_div (Z.of_N c) (10 ^ (- e))).
Proof.
  destruct (Z.leb_spec 0 e).
  - apply Z.mul_nonneg_nonneg; [lia|]. apply Z.pow_nonneg; lia.
  - apply round_half_even_div_nonneg; [lia|]. apply Z.pow_pos_nonneg; lia.
Qed.

Lemma dec_of_Z_ext n : ext_of (dec_of_Z n) = Some (XFin (inject_Z n)).
Proof.
  unfold dec_of_Z. simpl. rewrite Z.mul_1_r, Z2N.id by lia.
  unfold sgnZ. destruct (Z.ltb_spec n 0); do 3 f_equal; lia.
Qed.

(** A [Decimal] already rounded to units. *)
Lemma quantized_props neg c : 0 <= c < 10 ^ DEFAULT_PREC ->
  dec_quantize1 (Dfin neg (Z.to_N c) 0) = inr (Dfin neg (Z.to_N c) 0) /\
  dec_to_int (Dfin neg (Z.to_N c) 0) = inr (sgnZ neg c) /\
  dec_round_int (Dfin neg (Z.to_N c) 0) = Some (sgnZ neg c) /\
  dec_cmp (Dfin neg (Z.to_N c) 0) (dec_of_Z (sgnZ neg c)) = Some Eq.
Proof.
  intros Hc. simpl. fold_prec. rewrite Z.mul_1_r, Z2N.id by lia.
  repeat split.
  - destruct (Z.leb_spec (10 ^ DEFAULT_PREC) c); [lia|]. reflexivity.
  - unfold dec_cmp. rewrite dec_of_Z_ext. simpl. rewrite Z.mul_1_r, Z2N.id by lia.
    f_equal. apply Qeq_alt, Qeq_refl.
Qed.

(** What [quantize] gives: a value rounded to units, or a quiet NaN
    unchanged. *)
Lemma quantize1_cases d P : dec_quantize1 d = inr P ->
  (exists neg c, P = Dfin neg (Z.to_N c) 0 /\ 0 <= c < 10 ^ DEFAULT_PREC /\
                 dec_round_int d = Some (sgnZ neg c)) \/
  (P = d /\ dec_round_int d = None /\ ext_of d = None /\ is_snan d = false).
Proof.
  destruct d as [neg c e|neg|neg [] pl]; simpl; fold_prec; intros H; try discriminate.
  - left. pose proof (quant_coef_nonneg c e) as Hn.
    remember (if 0 <=? e then Z.of_N c * 10 ^ e else round_half_even_div (Z.of_N c) (10 ^ (- e))) as c'.
    destruct (Z.leb_spec (10 ^ DEFAULT_PREC) c'); [discriminate|].
    injection H as <-. exists neg, c'. repeat split; auto; lia.
  - right. injection H as <-. repeat split.
Qed.

Lemma quantize1_success d n : dec_round_int d = Some n -> Z.abs n < 10 ^ DEFAULT_PREC ->
  exists P, dec_quantize1 d = inr P /\ dec_to_int P = inr n /\ dec_round_int P = Some n /\
            dec_quantize1 P = inr P /\ dec_cmp P (dec_of_Z n) = Some Eq.
Proof.
  destruct d as [neg c e|neg|neg sg pl]; simpl; fold_prec; intros H Hn; try discriminate.
  pose proof (quant_coef_nonneg c e) as Hc.
  remember (if 0 <=? e then Z.of_N c * 10 ^ e else round_half_even_div (Z.of_N c) (10 ^ (- e))) as c'.
  injection H as <-.
  assert (Hlt : c' < 10 ^ DEFAULT_PREC) by (unfold sgnZ in Hn; destruct neg; lia).
  destruct (Z.leb_spec (10 ^ DEFAULT_PREC) c'); [lia|].
  exists (Dfin neg (Z.to_N c') 0). split; [reflexivity|].
  destruct (quantized_props neg c') as (H1 & H2 & H3 & H4); [lia|]. auto.
Qed.

Lemma quantize1_round d P n : dec_quantize1 d = inr P -> dec_round_int d = Some n ->
  dec_to_int P = inr n /\ dec_round_int P = Some n /\ dec_quantize1 P = inr P /\
  dec_cmp P (dec_of_Z n) = Some Eq /\ is_snan P = false.
Proof.
  intros HP Hn. destruct (quantize1_cases _ _ HP) as [(neg & c & -> & Hc & Hr)|(_ & Hr & _)];
    [|congruence].
  rewrite Hn in Hr. injection Hr as ->.
  destruct (quantized_props neg c Hc) as (H1 & H2 & H3 & H4). auto.
Qed.

(** A value equal to an integer rounds to it. *)
Lemma round_of_eq_int d n : dec_cmp d (dec_of_Z n) = Some Eq -> dec_round_int d = Some n.
Proof.
  unfold dec_cmp. rewrite dec_of_Z_ext.
  destruct d as [neg c e|[]|neg sg pl]; simpl; try discriminate.
  intros H. injection H as H. apply Qeq_alt in H.
  destruct (Z.leb_spec 0 e).
  - apply (proj1 (inject_Z_injective _ _)) in H. rewrite H. reflexivity.
  - f_equal. unfold Qeq in H. simpl in H.
    assert (Hm : 0 < 10 ^ (- e)) by (apply Z.pow_pos_nonneg; lia).
    rewrite Z2Pos.id in H by lia. rewrite Z.mul_1_r in H.
    unfold sgnZ in *. destruct neg.
    + replace (Z.of_N c) with (- n * 10 ^ (- e)) by lia.
      rewrite round_half_even_div_exact by lia. lia.
    + rewrite H. apply round_half_even_div_exact. lia.
Qed.

(** [_format_tl] of a value whose rounding to units has at most 28 digits:
    that integer with '.' every three digits. *)
Lemma format_tl_round d n : dec_round_int d = Some n -> Z.abs n < 10 ^ DEFAULT_PREC ->
  format_tl d = inr (replace_char 44 46 (fmt_thousands n)).
Proof.
  intros H Hn. destruct (quantize1_success d n H Hn) as (P & HP & Hi & _).
  unfold format_tl. rewrite HP. simpl. rewrite Hi. reflexivity.
Qed.

Lemma ext_cmp_eq_congr x y : ext_cmp x y = Eq -> forall z, ext_cmp x z = ext_cmp y z.
Proof.
  destruct x, y; simpl; try discriminate; intros H z; try reflexivity.
  apply Qeq_alt in H. destruct z; try reflexivity. simpl. rewrite H. reflexivity.
Qed.

Lemma dec_cmp_eq_congr a b x y : dec_cmp a x = Some Eq -> dec_cmp b y = Some Eq ->
  dec_cmp a b = dec_cmp x y.
Proof.
  unfold dec_cmp.
  destruct (ext_of a) as [ea|], (ext_of x) as [ex|], (ext_of b) as [eb|], (ext_of y) as [ey|];
    try discriminate; intros H1 H2. injection H1 as H1. injection H2 as H2.
  f_equal. rewrite (ext_cmp_eq_congr _ _ H1).
  rewrite ext_cmp_antisym, (ext_cmp_antisym ex ey). f_equal.
  apply ext_cmp_eq_congr; auto.
Qed.

Lemma dec_cmp_finite_not_snan a b c : dec_cmp a b = Some c -> is_snan a = false /\ is_snan b = false.
Proof.
  unfold dec_cmp. destruct a as [| |? [] ?], b as [| |? [] ?]; simpl;
    try discriminate; auto; destruct (ext_of _); discriminate.
Qed.

Lemma py_contains_prefix n post : py_contains n (n ++ post) = true.
Proof.
  destruct n as [|c n].
  - destruct post; reflexivity.
  - change ((c :: n) ++ post) with (c :: (n ++ post)). cbn [py_contains].
    change (c :: n ++ post) with ((c :: n) ++ post).
    rewrite firstn_app, Nat.sub_diag, firstn_O, firstn_all, app_nil_r.
    destruct (list_eq_dec Z.eq_dec (c :: n) (c :: n)); [reflexivity|congruence].
Qed.

Lemma py_contains_app_l n pre hay : py_contains n hay = true -> py_contains n (pre ++ hay) = true.
Proof.
  intros H. induction pre as [|c pre IH]; [exact H|].
  simpl. rewrite IH. apply orb_true_r.
Qed.

(** *** Runs of [main] *)

Ltac run_main := cbv [mbind lift emit mret save_last_price build_message bind ret].

(** C7 (as the code has it): on a first run (no stored price) that finds a
    value [V], the run notifies nothing and writes one record, whose
    [last_price] is [V] rounded to units (ties to even), not [V] itself;
    this for a finite [V] whose rounding has at most 28 digits. *)
Theorem main_first_record (e : env) (html : pystr) (V : decimal) (n : Z) :
  fetched e = Some html -> html <> [] -> snd (script_extract html) = inr (Some V) ->
  load_last_price (state e) = None ->
  dec_round_int V = Some n -> Z.abs n < 10 ^ DEFAULT_PREC ->
  main e = ([WriteState n (utcnow_iso e ++ pystr_of "Z")], inr 0).
Proof.
  intros Hf Hne Hx Hl Hr Hn.
  destruct (quantize1_success V n Hr Hn) as (P & HP & Hi & HrP & HPP & _).
  pose proof (format_tl_round P n HrP Hn) as Hfmt.
  unfold main. rewrite Hf. destruct html as [|h t]; [congruence|].
  run_main. rewrite Hx. run_main. rewrite HP. run_main. rewrite Hl. run_main.
  rewrite Hfmt. run_main. rewrite HPP. run_main. rewrite Hi. run_main.
  reflexivity.
Qed.

Lemma dec_cmp_eq_via a b z : dec_cmp a z = Some Eq -> dec_cmp b z = Some Eq -> dec_cmp a b = Some Eq.
Proof.
  intros H1 H2. rewrite (dec_cmp_eq_congr a b z z H1 H2).
  unfold dec_cmp in *. destruct (ext_of z); [|destruct (ext_of a); discriminate].
  rewrite ext_cmp_refl. reflexivity.
Qed.

(** C6: a run that finds 29800 while 29650 is stored sends one message,
    holding "29.650" and "29.800", and stores 29800. *)
Theorem main_change_notified (e : env) (html : pystr) (V last : decimal) :
  fetched e = Some html -> html <> [] -> snd (script_extract html) = inr (Some V) ->
  dec_cmp V (dec_of_Z 29800) = Some Eq ->
  load_last_price (state e) = Some last -> dec_cmp last (dec_of_Z 29650) = Some Eq ->
  exists msg, main e = ([Notify msg; WriteState 29800 (utcnow_iso e ++ pystr_of "Z")], inr 0) /\
    py_contains (pystr_of "29.650") msg = true /\ py_contains (pystr_of "29.800") msg = true.
Proof.
  intros Hf Hne Hx HV Hl Hlast.
  pose proof (round_of_eq_int _ _ HV) as HrV. pose proof (round_of_eq_int _ _ Hlast) as HrL.
  assert (B1 : Z.abs 29800 < 10 ^ DEFAULT_PREC) by (unfold DEFAULT_PREC; lia).
  assert (B2 : Z.abs 29650 < 10 ^ DEFAULT_PREC) by (unfold DEFAULT_PREC; lia).
  destruct (quantize1_success V 29800 HrV B1) as (P & HP & Hi & HrP & HPP & HPeq).
  pose proof (format_tl_round P 29800 HrP B1) as HfP.
  pose proof (format_tl_round last 29650 HrL B2) as HfL.
  assert (Hne' : dec_ne P last = inr true).
  { unfold dec_ne. destruct (dec_cmp_finite_not_snan _ _ _ HPeq) as [-> _].
    destruct (dec_cmp_finite_not_snan _ _ _ Hlast) as [-> _]. simpl.
    rewrite (dec_cmp_eq_congr _ _ _ _ HPeq Hlast). reflexivity. }
  unfold main. rewrite Hf. destruct html as [|h t]; [congruence|].
  run_main. rewrite Hx. run_main. rewrite HP. run_main. rewrite Hl. run_main.
  rewrite Hne'. run_main. rewrite HfL, HfP. run_main. rewrite HPP. run_main. rewrite Hi. run_main.
  eexists. split; [reflexivity|]. split.
  - do 3 apply py_contains_app_l.
    replace (replace_char 44 46 (fmt_thousands 29650)) with (pystr_of "29.650") by reflexivity.
    apply py_contains_prefix.
  - do 7 apply py_contains_app_l.
    replace (replace_char 44 46 (fmt_thousands 29800)) with (pystr_of "29.800") by reflexivity.
    apply py_contains_prefix.
Qed.

(** A run whose rounded price compares equal to the stored one notifies
    nothing and writes nothing. *)
Lemma main_equal_no_events e html V last :
  fetched e = Some html -> snd (script_extract html) = inr (Some V) ->
  load_last_price (state e) = Some last ->
  (forall P, dec_quantize1 V = inr P -> dec_cmp P last = Some Eq) ->
  fst (main e) = [].
Proof.
  intros Hf Hx Hl HP.
  unfold main. rewrite Hf. destruct html as [|h t]; [reflexivity|].
  run_main. rewrite Hx. run_main.
  destruct (dec_quantize1 V) as [ex|P] eqn:HQ; [reflexivity|].
  specialize (HP P eq_refl). run_main. rewrite Hl. run_main.
  assert (Hn : dec_ne P last = inr false).
  { unfold dec_ne. destruct (dec_cmp_finite_not_snan _ _ _ HP) as [-> ->]. simpl.
    rewrite HP. reflexivity. }
  rewrite Hn. run_main. destruct (format_tl P); reflexivity.
Qed.

(** The records a run writes hold its price rounded by [quantize], then
    rounded again by [save_last_price] and converted by [int]. *)
Lemma main_writes e html V lp ts :
  fetched e = Some html -> snd (script_extract html) = inr (Some V) ->
  In (WriteState lp ts) (fst (main e)) ->
  exists P Q, dec_quantize1 V = inr P /\ dec_quantize1 P = inr Q /\ dec_to_int Q = inr lp.
Proof.
  intros Hf Hx. unfold main. rewrite Hf. destruct html as [|h t]; [intros []|].
  run_main. rewrite Hx. run_main.
  repeat match goal with
         | |- context [match ?x with inl _ => _ | inr _ => _ end] => destruct x eqn:?
         | |- context [match ?x with true => _ | false => _ end] => destruct x eqn:?
         | |- context [match ?x with Some _ => _ | None => _ end] => destruct x eqn:?
         end;
    simpl; intros H; repeat destruct H as [H|H]; try discriminate; try contradiction;
    injection H as -> _; eauto.
Qed.

(** Rounding to units (ties to even) depends only on the value. *)
Lemma round_half_even_div_scale c m k : 0 <= c -> 0 < m -> 0 < k ->
  round_half_even_div (c * k) (m * k) = round_half_even_div c m.
Proof.
  intros Hc Hm Hk. unfold round_half_even_div.
  rewrite Z.div_mul_cancel_r, Z.mul_mod_distr_r by lia.
  rewrite Z.mul_assoc.
  replace (2 * (c mod m) * k ?= m * k) with (2 * (c mod m) ?= m); [reflexivity|].
  symmetry. destruct (Z.compare_spec (2 * (c mod m)) m) as [E|E|E];
    [apply Z.compare_eq_iff | apply Z.compare_lt_iff | apply Z.compare_gt_iff]; nia.
Qed.

Lemma round_half_even_div_one x : round_half_even_div x 1 = x.
Proof. unfold round_half_even_div. rewrite Z.div_1_r, Z.mod_1_r. reflexivity. Qed.

Lemma round_half_even_div_zero m : 0 < m -> round_half_even_div 0 m = 0.
Proof.
  intros Hm. unfold round_half_even_div. rewrite Z.div_0_l, Z.mod_0_l by lia.
  replace (2 * 0 ?= m) with Lt by (symmetry; apply Z.compare_lt_iff; lia). reflexivity.
Qed.

Lemma dec_fin_repr neg c e : exists num den, 0 <= num /\ 0 < den /\
  dec_val (Dfin neg c e) = Some (sgnZ neg num # Z.to_pos den) /\
  dec_round_int (Dfin neg c e) = Some (sgnZ neg (round_half_even_div num den)).
Proof.
  cbn [dec_val dec_round_int]. destruct (Z.leb_spec 0 e) as [He|He].
  - exists (Z.of_N c * 10 ^ e), 1. rewrite round_half_even_div_one.
    split; [apply Z.mul_nonneg_nonneg; [lia | apply Z.pow_nonneg; lia]|].
    split; [lia | split; reflexivity].
  - exists (Z.of_N c), (10 ^ (- e)).
    split; [lia | split; [apply Z.pow_pos_nonneg; lia | split; reflexivity]].
Qed.

Lemma dec_round_int_congr a b n : dec_cmp a b = Some Eq -> dec_round_int a = Some n ->
  dec_round_int b = Some n.
Proof.
  destruct a as [na ca ea|na|na sa pa]; [|discriminate..].
  destruct b as [nb cb eb|nb|nb sb pb]; intros H;
    [| unfold dec_cmp in H; simpl in H; destruct nb; discriminate
     | unfold dec_cmp in H; simpl in H; discriminate].
  destruct (dec_fin_repr na ca ea) as (xa & da & Hxa & Hda & Hva & Hra).
  destruct (dec_fin_repr nb cb eb) as (xb & db & Hxb & Hdb & Hvb & Hrb).
  unfold dec_cmp, ext_of in H. rewrite Hva, Hvb in H. simpl in H.
  injection H as H. apply Qeq_alt in H. unfold Qeq in H. simpl in H.
  rewrite !Z2Pos.id in H by lia.
  rewrite Hra, Hrb. intros E. injection E as <-. f_equal.
  assert (Hcross : (na = nb /\ xa * db = xb * da) \/ (xa = 0 /\ xb = 0)).
  { unfold sgnZ in H. destruct na, nb;
      [left; split; [reflexivity | lia] | right | right | left; split; [reflexivity | lia]].
    - assert (xa * db = 0 /\ xb * da = 0) as [H1 H2] by (split; nia).
      apply Z.mul_eq_0 in H1, H2. lia.
    - assert (xa * db = 0 /\ xb * da = 0) as [H1 H2] by (split; nia).
      apply Z.mul_eq_0 in H1, H2. lia. }
  destruct Hcross as [[<- Hc]|[-> ->]].
  - rewrite <- (round_half_even_div_scale xa da db), <- (round_half_even_div_scale xb db da) by lia.
    rewrite Hc, (Z.mul_comm db da). reflexivity.
  - rewrite !round_half_even_div_zero by lia. destruct na, nb; reflexivity.
Qed.

(** C8 (as the code has it): when the value found equals the stored price,
    a whole stored price gives a run that notifies nothing and writes
    nothing (every record the script writes is whole); a stored price that
    is not whole gives one notification and a write of the rounded value,
    whose rounding has at most 28 digits. *)
Theorem main_unchanged_whole (e : env) (html : pystr) (V last : decimal) :
  fetched e = Some html -> snd (script_extract html) = inr (Some V) ->
  load_last_price (state e) = Some last -> dec_cmp V last = Some Eq ->
  (forall k, dec_cmp last (dec_of_Z k) = Some Eq -> fst (main e) = []) /\
  (html <> [] -> (forall k, dec_cmp last (dec_of_Z k) <> Some Eq) ->
   forall n, dec_round_int V = Some n -> Z.abs n < 10 ^ DEFAULT_PREC ->
   exists msg, main e = ([Notify msg; WriteState n (utcnow_iso e ++ pystr_of "Z")], inr 0)).
Proof.
  intros Hf Hx Hl HV. split.
  - intros k Hk. apply (main_equal_no_events e html V last Hf Hx Hl).
    intros P HQ.
    assert (HVk : dec_cmp V (dec_of_Z k) = Some Eq).
    { assert (Hkk : dec_cmp (dec_of_Z k) (dec_of_Z k) = Some Eq).
      { unfold dec_cmp. rewrite dec_of_Z_ext. simpl. f_equal. apply Qeq_alt, Qeq_refl. }
      rewrite (dec_cmp_eq_congr V (dec_of_Z k) last (dec_of_Z k) HV Hkk). exact Hk. }
    destruct (quantize1_round V P k HQ (round_of_eq_int _ _ HVk)) as (_ & _ & _ & HP & _).
    apply (dec_cmp_eq_via _ _ _ HP Hk).
  - intros Hne Hfrac n Hr Hn.
    destruct (quantize1_success V n Hr Hn) as (P & HP & Hi & HrP & HPP & HPeq).
    pose proof (format_tl_round P n HrP Hn) as HfP.
    pose proof (format_tl_round last n (dec_round_int_congr V last n HV Hr) Hn) as HfL.
    assert (Hne' : dec_ne P last = inr true).
    { unfold dec_ne. destruct (dec_cmp_finite_not_snan _ _ _ HPeq) as [-> _].
      destruct (dec_cmp_finite_not_snan _ _ _ HV) as [_ ->]. cbn [orb].
      destruct (dec_cmp P last) as [[]|] eqn:Hc; try reflexivity.
      exfalso. apply (Hfrac n). apply (dec_cmp_eq_via last (dec_of_Z n) P).
      - rewrite dec_cmp_antisym, Hc. reflexivity.
      - rewrite dec_cmp_antisym, HPeq. reflexivity. }
    unfold main. rewrite Hf. destruct html as [|h t]; [congruence|].
    run_main. rewrite Hx. run_main. rewrite HP. run_main. rewrite Hl. run_main.
    rewrite Hne'. run_main. rewrite HfL, HfP. run_main. rewrite HPP. run_main. rewrite Hi. run_main.
    eexists. reflexivity.
Qed.

(** C10: the price found is rounded to units before it is compared and
    stored: every record written holds that rounded value, and a stored
    price equal to it leaves the run without notification or write,
    whatever the fraction of the value found. *)
Theorem main_rounded_price (e : env) (html : pystr) (V : decimal) :
  fetched e = Some html -> snd (script_extract html) = inr (Some V) ->
  (forall lp ts, In (WriteState lp ts) (fst (main e)) -> dec_round_int V = Some lp) /\
  (forall last n, load_last_price (state e) = Some last -> dec_round_int V = Some n ->
     dec_cmp last (dec_of_Z n) = Some Eq -> fst (main e) = []).
Proof.
  intros Hf Hx. split.
  - intros lp ts H. destruct (main_writes e html V lp ts Hf Hx H) as (P & Q & HP & HQ & Hi).
    destruct (quantize1_cases _ _ HP) as [(neg & c & -> & Hc & Hr)|(-> & _ & Hext & _)].
    + destruct (quantized_props neg c Hc) as (H1 & H2 & _).
      rewrite H1 in HQ. injection HQ as <-. rewrite H2 in Hi. injection Hi as <-. exact Hr.
    + destruct V as [| |neg sg pl]; try discriminate.
      destruct sg; simpl in HQ; [discriminate|]. injection HQ as <-. discriminate.
  - intros last n Hl Hr Hn. apply (main_equal_no_events e html V last Hf Hx Hl).
    intros P HQ. destruct (quantize1_round V P n HQ Hr) as (_ & _ & _ & HP & _).
    apply (dec_cmp_eq_via _ _ _ HP Hn).
Qed.

(** *** [fetch_html] *)

Lemma flat_map_ext_in {A B} (f g : A -> list B) (l : list A) :
  (forall x, In x l -> f x = g x) -> flat_map f l = flat_map g l.
Proof.
  induction l as [|x l IH]; simpl; intros H; [reflexivity|].
  rewrite (H x (or_introl eq_refl)), IH; auto.
Qed.

Lemma failed_events_shift n a b :
  forall l, (forall j, In j l -> (a < j)%nat) ->
  flat_map (failed_events n (S a) (b * 2)) l = flat_map (failed_events n a b) l.
Proof.
  intros l Hl. apply flat_map_ext_in. intros j Hj. specialize (Hl j Hj).
  unfold failed_events. destruct (Nat.ltb j n); [|reflexivity].
  replace (Z.of_nat (j - a)) with (Z.succ (Z.of_nat (j - S a))) by lia.
  assert (E : b * 2 * 2 ^ Z.of_nat (j - S a) = b * 2 ^ Z.succ (Z.of_nat (j - S a)))
    by (rewrite Z.pow_succ_r by lia; ring).
  rewrite E. reflexivity.
Qed.

Lemma fetch_loop_fail get n : forall m a b, (a + m <= S n)%nat ->
  (forall j, (a <= j < a + m)%nat -> ok_response (get j) = None) ->
  fetch_loop get n (seq a m) b = (flat_map (failed_events n a b) (seq a m), None).
Proof.
  induction m as [|m IH]; intros a b Hm Hj; [reflexivity|].
  cbn [seq fetch_loop flat_map]. rewrite (Hj a) by lia.
  unfold failed_events at 1. rewrite Nat.sub_diag. cbn [Z.of_nat]. rewrite Z.mul_1_r.
  destruct (Nat.ltb_spec a n).
  - rewrite (IH (S a) (b * 2)) by (intros; try apply Hj; lia).
    rewrite failed_events_shift by (intros j Hin; apply in_seq in Hin; lia).
    reflexivity.
  - assert (m = 0%nat) by lia. subst m. reflexivity.
Qed.

Lemma fetch_loop_success get n t k : forall m a b, (a + m <= S n)%nat -> (a <= k < a + m)%nat ->
  ok_response (get k) = Some t ->
  (forall j, (a <= j < k)%nat -> ok_response (get j) = None) ->
  fetch_loop get n (seq a m) b = (flat_map (failed_events n a b) (seq a (k - a)) ++ [Get k], Some t).
Proof.
  induction m as [|m IH]; intros a b Hm Hk Ht Hj; [lia|].
  cbn [seq fetch_loop]. destruct (Nat.eq_dec a k) as [<-|Hak].
  - rewrite Ht, Nat.sub_diag. reflexivity.
  - rewrite (Hj a) by lia.
    replace (k - a)%nat with (S (k - S a)) by lia. cbn [seq flat_map].
    unfold failed_events at 1. rewrite Nat.sub_diag. cbn [Z.of_nat]. rewrite Z.mul_1_r.
    destruct (Nat.ltb_spec a n); [|lia].
    rewrite (IH (S a) (b * 2)) by (first [assumption | intros; apply Hj; lia | lia]).
    rewrite failed_events_shift by (intros j Hin; apply in_seq in Hin; lia).
    reflexivity.
Qed.

Lemma failed_events_start n : forall l, flat_map (failed_events n 1 1) l = flat_map (attempt_events n) l.
Proof.
  intros l. apply flat_map_ext_in. intros j _. unfold failed_events, attempt_events.
  rewrite Z.mul_1_l. reflexivity.
Qed.

(** X1: when attempt [k] is the first to get status 200 with a non-empty
    text, [fetch_html] returns that text after the requests [1..k], with a
    sleep of [2 ^ (j - 1)] seconds after each failed attempt [j]. *)
Theorem fetch_html_first_success (get : nat -> response) (max_retries k : nat) (t : pystr) :
  (1 <= k <= max_retries)%nat -> ok_response (get k) = Some t ->
  (forall j, (1 <= j < k)%nat -> ok_response (get j) = None) ->
  fetch_html get max_retries = (flat_map (attempt_events max_retries) (seq 1 (k - 1)) ++ [Get k], Some t)
  /\ t <> [].
Proof.
  intros Hk Ht Hj. split.
  - unfold fetch_html. rewrite (fetch_loop_success get max_retries t k max_retries 1 1) by (auto; lia).
    rewrite failed_events_start. reflexivity.
  - destruct (get k) as [code text|]; simpl in Ht; [|discriminate].
    destruct (code =? 200), text; simpl in Ht; try discriminate.
    injection Ht as <-. discriminate.
Qed.

(** X2: when every attempt fails, [fetch_html] makes [max_retries]
    requests, sleeps 1, 2, 4, ... seconds between them (not after the
    last) and returns [None]. *)
Theorem fetch_html_all_fail (get : nat -> response) (max_retries : nat) :
  (forall j, (1 <= j <= max_retries)%nat -> ok_response (get j) = None) ->
  fetch_html get max_retries = (flat_map (attempt_events max_retries) (seq 1 max_retries), None).
Proof.
  intros Hj. unfold fetch_html.
  rewrite fetch_loop_fail by (intros; try apply Hj; lia).
  rewrite failed_events_start. reflexivity.
Qed.

(** *** Decimal digits *)

Lemma nat_digits_spec fuel : forall n acc, 0 <= n < 10 ^ Z.of_nat fuel ->
  Forall (fun c => is_digit c = true) acc ->
  Forall (fun c => is_digit c = true) (nat_digits fuel n acc) /\
  fold_left (fun a d => a * 10 + (d - 48)) (nat_digits fuel n acc) 0
  = fold_left (fun a d => a * 10 + (d - 48)) acc n /\
  (List.length (nat_digits fuel n acc) <= fuel + List.length acc)%nat.
Proof.
  induction fuel as [|f IH]; intros n acc Hn Hacc; cbn [nat_digits].
  - simpl in Hn. assert (n = 0) by lia. subst n. repeat split; auto.
  - assert (Hd : is_digit (48 + n mod 10) = true).
    { pose proof (Z.mod_pos_bound n 10). unfold is_digit.
      apply andb_true_iff; split; apply Z.leb_le; lia. }
    destruct (Z.ltb_spec n 10).
    + repeat split.
      * constructor; auto.
      * cbn [fold_left]. rewrite Z.mod_small by lia. f_equal. lia.
      * cbn [List.length]. lia.
    + rewrite Nat2Z.inj_succ, Z.pow_succ_r in Hn by lia.
      destruct (IH (n / 10) ((48 + n mod 10) :: acc)) as (H1 & H2 & H3).
      * split; [apply Z.div_pos; lia|]. apply Z.div_lt_upper_bound; lia.
      * constructor; auto.
      * repeat split; auto.
        -- rewrite H2. cbn [fold_left]. f_equal. pose proof (Z.div_mod n 10). lia.
        -- cbn [List.length] in H3. lia.
Qed.

Lemma nat_digits_acc fuel : forall n acc, exists pre, nat_digits fuel n acc = pre ++ acc.
Proof.
  induction fuel as [|f IH]; intros n acc; cbn [nat_digits].
  - exists []. reflexivity.
  - destruct (n <? 10).
    + exists [48 + n mod 10]. reflexivity.
    + destruct (IH (n / 10) ((48 + n mod 10) :: acc)) as [pre ->].
      exists (pre ++ [48 + n mod 10]). rewrite <- app_assoc. reflexivity.
Qed.

Lemma z_digits_spec m : 0 <= m ->
  Forall (fun c => is_digit c = true) (z_digits m) /\ digits_value (z_digits m) = m /\
  z_digits m <> [] /\ (List.length (z_digits m) <= S (Z.to_nat (Z.log2 m)))%nat.
Proof.
  intros Hm. unfold z_digits, digits_value.
  assert (Hb : m < 10 ^ Z.of_nat (S (Z.to_nat (Z.log2 m)))).
  { pose proof (Z.log2_nonneg m).
    replace (Z.of_nat (S (Z.to_nat (Z.log2 m)))) with (Z.succ (Z.log2 m)) by lia.
    apply Z.lt_le_trans with (2 ^ Z.succ (Z.log2 m)).
    - destruct (Z.eq_dec m 0) as [->|Hm0]; [apply Z.pow_pos_nonneg; lia|].
      apply Z.log2_spec. lia.
    - apply Z.pow_le_mono_l. lia. }
  destruct (nat_digits_spec (S (Z.to_nat (Z.log2 m))) m [] (conj Hm Hb) (Forall_nil _))
    as (H1 & H2 & H3).
  repeat split; auto.
  - cbn [nat_digits]. destruct (m <? 10); [discriminate|].
    destruct (nat_digits_acc (Z.to_nat (Z.log2 m)) (m / 10) [48 + m mod 10]) as [pre ->].
    destruct pre; discriminate.
  - cbn [List.length] in H3. rewrite Nat.add_0_r in H3. exact H3.
Qed.

(** *** The UTC offset of [_istanbul_now_str] *)

Lemma pad2_spec n : 0 <= n < 100 -> pad2 n = [48 + n / 10; 48 + n mod 10].
Proof.
  intros Hn. unfold pad2, z_digits. destruct (Z.ltb_spec n 10).
  - cbn [nat_digits]. rewrite (proj2 (Z.ltb_lt n 10)) by lia.
    rewrite Z.div_small by lia. reflexivity.
  - assert (Hl : 0 < Z.log2 n) by (apply Z.log2_pos; lia).
    destruct (Z.to_nat (Z.log2 n)) as [|f] eqn:E; [lia|].
    cbn [nat_digits]. rewrite (proj2 (Z.ltb_ge n 10)) by lia.
    rewrite (proj2 (Z.ltb_lt (n / 10) 10)) by (apply Z.div_lt_upper_bound; lia).
    rewrite (Z.mod_small (n / 10) 10) by (split; [apply Z.div_pos|apply Z.div_lt_upper_bound]; lia).
    reflexivity.
Qed.

Lemma is_digit_48 x : 0 <= x <= 9 -> is_digit (48 + x) = true.
Proof. intros H. unfold is_digit. apply andb_true_iff; split; apply Z.leb_le; lia. Qed.

(** X3: the offset [_istanbul_now_str] writes reads back as the UTC offset
    in whole minutes, with a zero offset shown as three hours (+03:00), for
    any offset under 100 hours. *)
Theorem offset_str_read_back (offset_s : Z) :
  Z.abs (offset_s / 60) < 6000 ->
  read_offset (offset_str offset_s) = Some (if offset_s =? 0 then 180 else offset_s / 60).
Proof.
  intros H. unfold offset_str. cbv zeta.
  set (tm := (if offset_s =? 0 then 3 * 3600 else offset_s) / 60).
  assert (Htm : tm = if offset_s =? 0 then 180 else offset_s / 60)
    by (unfold tm; destruct (offset_s =? 0); reflexivity).
  rewrite <- Htm.
  assert (Hb : Z.abs tm < 6000) by (rewrite Htm; destruct (Z.eqb_spec offset_s 0); lia).
  set (h := Z.abs tm / 60). set (m := Z.abs tm mod 60).
  assert (Hh : 0 <= h < 100) by (unfold h; split; [apply Z.div_pos|apply Z.div_lt_upper_bound]; lia).
  assert (Hm : 0 <= m < 60) by (unfold m; apply Z.mod_pos_bound; lia).
  assert (Ht : Z.abs tm = 60 * h + m) by (unfold h, m; apply Z.div_mod; lia).
  rewrite (pad2_spec h Hh), (pad2_spec m) by lia.
  pose proof (Z.div_mod h 10 ltac:(lia)) as Dh. pose proof (Z.div_mod m 10 ltac:(lia)) as Dm.
  pose proof (Z.mod_pos_bound h 10 ltac:(lia)) as Mh. pose proof (Z.mod_pos_bound m 10 ltac:(lia)) as Mm.
  assert (Qh : 0 <= h / 10 < 10) by (split; [apply Z.div_pos|apply Z.div_lt_upper_bound]; lia).
  assert (Qm : 0 <= m / 10 < 10) by (split; [apply Z.div_pos|apply Z.div_lt_upper_bound]; lia).
  assert (sgn : forall sg, (sg = 43 \/ sg = 45) -> read_offset ([sg] ++ [48 + h / 10; 48 + h mod 10] ++ [58] ++ [48 + m / 10; 48 + m mod 10])
     = Some (if sg =? 45 then - Z.abs tm else Z.abs tm)).
  { intros sg Hsg. unfold read_offset. cbn [app].
    rewrite (is_digit_48 (h / 10)), (is_digit_48 (h mod 10)), (is_digit_48 (m / 10)), (is_digit_48 (m mod 10)) by lia.
    rewrite Z.eqb_refl. cbn [andb].
    replace ((sg =? 43) || (sg =? 45)) with true by (destruct Hsg as [->| ->]; reflexivity).
    f_equal. destruct (sg =? 45); lia. }
  destruct (Z.leb_spec 0 tm) as [Hp|Hp].
  - replace (if 0 <=? tm then [43] else [45]) with [43]
      by (rewrite (proj2 (Z.leb_le _ _) Hp); reflexivity).
    rewrite (sgn 43) by auto. simpl. f_equal. lia.
  - replace (if 0 <=? tm then [43] else [45]) with [45]
      by (rewrite (proj2 (Z.leb_gt _ _) Hp); reflexivity).
    rewrite (sgn 45) by auto. simpl. f_equal. lia.
Qed.

(** *** Reading back what the script writes *)

Lemma digit_facts c : is_digit c = true -> 48 <= c <= 57.
Proof.
  intros H. unfold is_digit in H. apply andb_true_iff in H. destruct H as [H1 H2].
  apply Z.leb_le in H1. apply Z.leb_le in H2. lia.
Qed.

Lemma space_free c : 33 <= c <= 127 -> py_isspace c = false.
Proof.
  intros Hc. apply Bool.not_true_is_false. intros Hs. unfold py_isspace in Hs.
  rewrite ?orb_true_iff, ?andb_true_iff, ?Z.leb_le, ?Z.eqb_eq in Hs. lia.
Qed.

Lemma lstrip_ws_id s : (forall c, In c s -> py_isspace c = false) -> lstrip_ws s = s.
Proof.
  destruct s as [|c r]; simpl; intros H; [reflexivity|].
  rewrite (H c (or_introl eq_refl)). reflexivity.
Qed.

Lemma py_strip_id s : (forall c, In c s -> py_isspace c = false) -> py_strip s = s.
Proof.
  intros H. unfold py_strip. rewrite (lstrip_ws_id s H).
  rewrite lstrip_ws_id; [apply rev_involutive|].
  intros c Hc. apply H. apply in_rev. exact Hc.
Qed.

Lemma numeric_as_ascii_id u : (forall c, In c u -> 0 < c <= 127 /\ c <> 95) -> numeric_as_ascii u = Some u.
Proof.
  induction u as [|c r IH]; intros H; cbn [numeric_as_ascii]; [reflexivity|].
  destruct (H c (or_introl eq_refl)) as [Hc H95].
  rewrite (proj2 (Z.eqb_neq c 95) H95).
  replace ((0 <? c) && (c <=? 127)) with true
    by (symmetry; apply andb_true_iff; split; [apply Z.ltb_lt | apply Z.leb_le]; lia).
  rewrite IH; [reflexivity|]. intros x Hx. apply H. right; exact Hx.
Qed.

Lemma prefix_ci_low w s : forallb (Z.leb 97) w = true -> w <> [] ->
  (forall c, In c s -> c < 65) -> prefix_ci w s = None.
Proof.
  destruct w as [|a w]; [congruence|]. destruct s as [|c s]; intros Hw _ Hs; [reflexivity|].
  simpl in Hw. apply andb_true_iff in Hw. destruct Hw as [Ha _]. apply Z.leb_le in Ha.
  specialize (Hs c (or_introl eq_refl)). simpl.
  rewrite (proj2 (Z.eqb_neq c a)), (proj2 (Z.eqb_neq (c + 32) a)) by lia. reflexivity.
Qed.

Lemma drop_zeros_cases c r : drop_zeros (c :: r) = drop_zeros r \/ drop_zeros (c :: r) = c :: r.
Proof.
  destruct c as [|p|p]; [right; reflexivity| |right; reflexivity].
  do 6 (destruct p as [p|p|]; try (left; reflexivity); try (right; reflexivity)).
Qed.

Lemma drop_zeros_length ds : (List.length (drop_zeros ds) <= List.length ds)%nat.
Proof.
  induction ds as [|c r IH]; [reflexivity|].
  destruct (drop_zeros_cases c r) as [-> | ->]; simpl; lia.
Qed.

Lemma span_digits_all D : Forall (fun c => is_digit c = true) D -> span_digits D = (D, []).
Proof.
  induction 1 as [|x l Hx HD IH]; [reflexivity|]. simpl. rewrite Hx, IH. reflexivity.
Qed.

(** [Decimal] of an optional minus sign and at most 94 digits. *)
Lemma mpd_parse_digits (neg : bool) (D : pystr) : Forall (fun c => is_digit c = true) D -> D <> [] ->
  (List.length D <= 94)%nat ->
  mpd_parse ((if neg then [45] else []) ++ D) = Some (Dfin neg (Z.to_N (digits_value D)) 0).
Proof.
  intros HD Hne Hlen.
  assert (Hlow : forall c, In c D -> c < 65).
  { intros c Hc. rewrite Forall_forall in HD. pose proof (digit_facts c (HD c Hc)). lia. }
  assert (Hsign : parse_sign ((if neg then [45] else []) ++ D) = (neg, D)).
  { destruct D as [|d D']; [congruence|]. destruct neg; [reflexivity|].
    simpl. assert (Hd : 48 <= d <= 57) by (inversion HD; subst; apply digit_facts; auto).
    rewrite (proj2 (Z.eqb_neq d 43)), (proj2 (Z.eqb_neq d 45)) by lia. reflexivity. }
  unfold mpd_parse. rewrite Hsign. cbv beta iota.
  rewrite (prefix_ci_low (pystr_of "nan")), (prefix_ci_low (pystr_of "snan")),
    (prefix_ci_low (pystr_of "inf")) by first [reflexivity | vm_compute; intros Hx; discriminate Hx | exact Hlow].
  rewrite (span_digits_all D HD). cbv beta iota. rewrite app_nil_r.
  destruct D as [|d D']; [congruence|]. cbv beta iota zeta.
  assert (Hns : 1 <= nsig (d :: D') <= 94).
  { unfold nsig. pose proof (drop_zeros_length (d :: D')). lia. }
  match goal with |- (if ?b then _ else _) = _ => assert (Hc : b = true) end.
  { unfold MIN_ETINY, MAX_PREC, MAX_EMAX. cbn [List.length Z.of_nat].
    rewrite !andb_true_iff, !Z.leb_le. lia. }
  rewrite Hc. reflexivity.
Qed.

(** [Decimal(str(k))] is [k], for the integers the script can write. *)
Lemma py_Decimal_str_int k : Z.abs k < 10 ^ DEFAULT_PREC -> py_Decimal (py_str_int k) = Some (dec_of_Z k).
Proof.
  intros Hk. destruct (z_digits_spec (Z.abs k) (Z.abs_nonneg k)) as (HD & Hv & Hne & Hl).
  set (D := z_digits (Z.abs k)) in *.
  assert (Hlen : (List.length D <= 94)%nat).
  { assert (Z.log2 (Z.abs k) <= 93).
    { replace 93 with (Z.log2 (10 ^ DEFAULT_PREC)) by reflexivity.
      apply Z.log2_le_mono. lia. }
    pose proof (Z.log2_nonneg (Z.abs k)). lia. }
  assert (Hchars : forall c, In c (py_str_int k) -> c = 45 \/ 48 <= c <= 57).
  { unfold py_str_int. fold D. intros c Hc. apply in_app_or in Hc. destruct Hc as [Hc|Hc].
    - left. destruct (k <? 0); simpl in Hc; [destruct Hc as [<-|[]]; reflexivity | contradiction].
    - right. rewrite Forall_forall in HD. apply digit_facts, HD, Hc. }
  unfold py_Decimal. rewrite py_strip_id by (intros c Hc; apply space_free; destruct (Hchars c Hc); lia).
  rewrite numeric_as_ascii_id by (intros c Hc; destruct (Hchars c Hc); lia).
  unfold py_str_int. fold D. rewrite (mpd_parse_digits (k <? 0) D HD Hne Hlen).
  unfold dec_of_Z. rewrite Hv. reflexivity.
Qed.

Lemma group3_rev_spec n : forall l, (List.length l <= n)%nat ->
  remove_char 44 (group3_rev l) = remove_char 44 l /\
  (forall c, In c (group3_rev l) -> In c l \/ c = 44).
Proof.
  induction n as [|n IH]; intros l Hl.
  - destruct l; [|simpl in Hl; lia]. split; [reflexivity|]. intros c [].
  - destruct l as [|a [|b [|c [|d r]]]];
      try (split; [reflexivity | intros x Hx; left; exact Hx]).
    assert (E : group3_rev (a :: b :: c :: d :: r) = a :: b :: c :: 44 :: group3_rev (d :: r))
      by reflexivity.
    rewrite E. destruct (IH (d :: r)) as [H1 H2]; [simpl in Hl |- *; lia|].
    split.
    + unfold remove_char in *. cbn [filter]. rewrite Z.eqb_refl. cbn [negb].
      rewrite H1. reflexivity.
    + intros x Hx. simpl in Hx.
      destruct Hx as [<-|[<-|[<-|[<-|Hx]]]]; [left; simpl; auto..| right; reflexivity|].
      destruct (H2 x Hx) as [H|H]; [left; simpl; auto | right; exact H].
Qed.

Lemma remove_char_notin a s : ~ In a s -> remove_char a s = s.
Proof.
  induction s as [|c s IH]; intros H; [reflexivity|].
  unfold remove_char in *. simpl. destruct (Z.eqb_spec c a) as [->|Hc].
  - exfalso. apply H. left; reflexivity.
  - simpl. rewrite IH; [reflexivity|]. intros Hs. apply H. right; exact Hs.
Qed.

Lemma replace_remove_swap y : ~ In 46 y -> remove_char 46 (replace_char 44 46 y) = remove_char 44 y.
Proof.
  induction y as [|c y IH]; intros H; [reflexivity|].
  assert (Hy : ~ In 46 y) by (intros Hy; apply H; right; exact Hy).
  assert (Hc : c <> 46) by (intros ->; apply H; left; reflexivity).
  unfold remove_char, replace_char in *. cbn [map filter].
  destruct (Z.eqb_spec c 44) as [->|Hc44].
  - simpl. apply IH, Hy.
  - rewrite (proj2 (Z.eqb_neq c 46) Hc). simpl. f_equal. apply IH, Hy.
Qed.

Lemma replace_char_app a b x y : replace_char a b (x ++ y) = replace_char a b x ++ replace_char a b y.
Proof. apply map_app. Qed.

Lemma replace_char_rev a b x : replace_char a b (rev x) = rev (replace_char a b x).
Proof. apply map_rev. Qed.

Lemma remove_char_app a x y : remove_char a (x ++ y) = remove_char a x ++ remove_char a y.
Proof. apply filter_app. Qed.

Lemma remove_char_rev a x : remove_char a (rev x) = rev (remove_char a x).
Proof. apply filter_rev. Qed.

(** The text [_format_tl] gives for an integer reads back as that integer. *)
Lemma fmt_thousands_read_back n : Z.abs n < 10 ^ DEFAULT_PREC ->
  turkish_number_to_decimal (replace_char 44 46 (fmt_thousands n)) = Some (dec_of_Z n).
Proof.
  intros Hn. rewrite <- (py_Decimal_str_int n Hn).
  destruct (z_digits_spec (Z.abs n) (Z.abs_nonneg n)) as (HD & _ & _ & _).
  set (D := z_digits (Z.abs n)) in *.
  set (sg := if n <? 0 then [45] else []).
  assert (Hsg : forall c, In c sg -> c = 45)
    by (unfold sg; destruct (n <? 0); simpl; intros c Hc; [destruct Hc as [<-|[]]; reflexivity | contradiction]).
  assert (HDc : forall c, In c D -> 48 <= c <= 57)
    by (intros c Hc; rewrite Forall_forall in HD; apply digit_facts, HD, Hc).
  destruct (group3_rev_spec (List.length (rev D)) (rev D) (le_n _)) as [HG1 HG2].
  set (G := group3_rev (rev D)) in *.
  assert (HGc : forall c, In c G -> c = 44 \/ 48 <= c <= 57).
  { intros c Hc. destruct (HG2 c Hc) as [H|H]; [right; apply HDc, in_rev, H | left; exact H]. }
  unfold fmt_thousands. fold D. fold sg. fold G.
  set (X := replace_char 44 46 (sg ++ rev G)).
  assert (HX : forall c, In c X -> c = 45 \/ c = 46 \/ 48 <= c <= 57).
  { intros c Hc. unfold X, replace_char in Hc. apply in_map_iff in Hc.
    destruct Hc as (x & <- & Hx). apply in_app_or in Hx. destruct Hx as [Hx|Hx].
    - rewrite (Hsg x Hx). left; reflexivity.
    - rewrite <- in_rev in Hx. destruct (HGc x Hx) as [->|Hd]; [right; left; reflexivity|].
      rewrite (proj2 (Z.eqb_neq x 44)) by lia. right; right; exact Hd. }
  unfold turkish_number_to_decimal. cbv zeta.
  rewrite py_strip_id by (intros c Hc; apply space_free; destruct (HX c Hc) as [->|[->|Hd]]; lia).
  rewrite (replace_char_notin 160 32 X) by (intros Hc; destruct (HX _ Hc); lia).
  rewrite (remove_char_notin 32 X) by (intros Hc; destruct (HX _ Hc); lia).
  unfold X. rewrite replace_char_app, replace_char_rev.
  rewrite (replace_char_notin 44 46 sg) by (intros Hc; pose proof (Hsg _ Hc); lia).
  rewrite remove_char_app, remove_char_rev.
  rewrite (remove_char_notin 46 sg) by (intros Hc; pose proof (Hsg _ Hc); lia).
  rewrite replace_remove_swap by (intros Hc; destruct (HGc _ Hc); lia).
  rewrite HG1.
  rewrite (remove_char_notin 44 (rev D)) by (intros Hc; rewrite <- in_rev in Hc; pose proof (HDc _ Hc); lia).
  rewrite rev_involutive.
  rewrite (replace_char_notin 44 46 (sg ++ D)).
  2:{ intros Hc. apply in_app_or in Hc. destruct Hc as [Hc|Hc];
      [pose proof (Hsg _ Hc) | pose proof (HDc _ Hc)]; lia. }
  reflexivity.
Qed.

(** X4: [_format_tl] of a value that rounds to an integer of at most 28
    digits gives a text that [_turkish_number_to_decimal] reads back as that
    rounded integer. *)
Theorem format_tl_read_back (d : decimal) (n : Z) :
  dec_round_int d = Some n -> Z.abs n < 10 ^ DEFAULT_PREC ->
  exists s, format_tl d = inr s /\ turkish_number_to_decimal s = Some (dec_of_Z n).
Proof.
  intros Hr Hn. exists (replace_char 44 46 (fmt_thousands n)). split.
  - apply format_tl_round; auto.
  - apply fmt_thousands_read_back; auto.
Qed.

(** The integers [save_last_price] can write. *)
Lemma to_int_of_quantized price q z : dec_quantize1 price = inr q -> dec_to_int q = inr z ->
  Z.abs z < 10 ^ DEFAULT_PREC /\ dec_cmp q (dec_of_Z z) = Some Eq /\
  dec_round_int q = Some z /\ dec_quantize1 q = inr q.
Proof.
  intros Hq Hz. destruct (quantize1_cases _ _ Hq) as [(neg & c & -> & Hc & _)|(-> & _ & Hext & _)].
  - destruct (quantized_props neg c Hc) as (H1 & H2 & H3 & H4).
    rewrite H2 in Hz. injection Hz as <-. repeat split; auto.
    unfold sgnZ; destruct neg; lia.
  - destruct price; simpl in Hext, Hz; discriminate.
Qed.

Lemma quantize1_idem d P : dec_quantize1 d = inr P -> dec_quantize1 P = inr P.
Proof.
  intros H. destruct (quantize1_cases _ _ H) as [(neg & c & -> & Hc & _)|(-> & _ & Hext & Hs)].
  - apply (quantized_props neg c Hc).
  - destruct d as [| |neg [] pl]; simpl in Hext, Hs; try discriminate. reflexivity.
Qed.

(** [load_last_price] of a JSON integer the script can write. *)
Lemma load_int_round_trip lp : Z.abs lp < 10 ^ DEFAULT_PREC ->
  load_last_price (JsonDict (Some (JInt lp))) = Some (dec_of_Z lp).
Proof. intros H. cbn [load_last_price json_str]. apply py_Decimal_str_int, H. Qed.

(** X5: every [last_price] that [save_last_price] writes is read back by
    [load_last_price] as exactly that integer. *)
Theorem save_load_round_trip (e : env) (price : decimal) (lp : Z) (ts : pystr) :
  In (WriteState lp ts) (fst (save_last_price e price)) ->
  load_last_price (JsonDict (Some (JInt lp))) = Some (dec_of_Z lp).
Proof.
  unfold save_last_price. cbv [mbind lift emit].
  destruct (dec_quantize1 price) as [ex|q] eqn:Hq; [intros []|].
  destruct (dec_to_int q) as [ex|z] eqn:Hz; [intros []|].
  intros [H|[]]. injection H as <- _.
  apply load_int_round_trip. apply (to_int_of_quantized price q z Hq Hz).
Qed.

(** X6: after a run that writes a record, a run on the same page with that
    record as the state file notifies nothing, writes nothing and exits
    with 0. *)
Theorem main_rerun_after_write (e e' : env) (html : pystr) (lp : Z) (ts : pystr) :
  fetched e = Some html -> fetched e' = Some html ->
  In (WriteState lp ts) (fst (main e)) ->
  state e' = JsonDict (Some (JInt lp)) ->
  main e' = ([], inr 0).
Proof.
  intros Hf Hf' Hw Hs.
  destruct (snd (script_extract html)) as [ex|[V|]] eqn:Hx.
  1, 3: exfalso; revert Hw; unfold main; rewrite Hf; destruct html as [|h t]; [intros []|];
    run_main; rewrite Hx; simpl; intros [].
  destruct (main_writes e html V lp ts Hf Hx Hw) as (P & Q & HP & HQ & Hi).
  rewrite (quantize1_idem _ _ HP) in HQ. injection HQ as <-.
  destruct (to_int_of_quantized P P lp (quantize1_idem _ _ HP) Hi) as (Hb & Heq & Hr & _).
  assert (Hne : dec_ne P (dec_of_Z lp) = inr false).
  { unfold dec_ne. destruct (dec_cmp_finite_not_snan _ _ _ Heq) as [-> ->]. simpl.
    rewrite Heq. reflexivity. }
  unfold main. rewrite Hf'. destruct html as [|h t]; [reflexivity|].
  run_main. rewrite Hx. run_main. rewrite HP. run_main. rewrite Hs.
  rewrite (load_int_round_trip lp Hb). run_main. rewrite Hne. run_main.
  rewrite (format_tl_round P lp Hr Hb). reflexivity.
Qed.

Lemma format_tl_nonfinite d : dec_val d = None -> exists ex, format_tl d = inl ex.
Proof.
  destruct d as [neg c e|neg|neg [] pl]; simpl; intros H; try discriminate; eexists; reflexivity.
Qed.

(** X7: when the stored price is not a finite number (a NaN or an
    infinity, e.g. the JSON string "NaN"), a run that finds a price ends in
    an exception, with no message and no write. *)
Theorem main_nonfinite_last (e : env) (html : pystr) (V last : decimal) :
  fetched e = Some html -> html <> [] -> snd (script_extract html) = inr (Some V) ->
  load_last_price (state e) = Some last -> dec_val last = None ->
  exists ex, main e = ([], inl ex).
Proof.
  intros Hf Hne Hx Hl Hv.
  unfold main. rewrite Hf. destruct html as [|h t]; [congruence|].
  run_main. rewrite Hx. run_main.
  destruct (dec_quantize1 V) as [ex|P] eqn:HP; [eexists; reflexivity|].
  run_main. rewrite Hl. run_main.
  destruct (dec_ne P last) as [ex|ne] eqn:Hne'; [eexists; reflexivity|].
  run_main. destruct (format_tl_nonfinite last Hv) as [ex Hfl].
  destruct ne.
  - rewrite Hfl. run_main. eexists; reflexivity.
  - exfalso. unfold dec_ne, ret, raise in Hne'.
    destruct (is_snan P || is_snan last); [discriminate|].
    destruct (dec_cmp P last) as [[]|] eqn:Hc; try discriminate.
    destruct (quantize1_cases V P HP) as [(neg & c & -> & _ & _)|(-> & _ & Hext & _)].
    + destruct last as [n0 c0 e0|b|n0 s0 p0]; [simpl in Hv; discriminate| |];
        unfold dec_cmp in Hc; simpl in Hc; [destruct b|]; discriminate.
    + unfold dec_cmp in Hc. rewrite Hext in Hc. discriminate.
Qed.

(** X8: a price found whose rounding to units has more than 28 digits
    (or an infinity) makes [quantize] raise: the run ends in
    [InvalidOperation], with no message and no write. *)
Theorem main_price_too_large (e : env) (html : pystr) (V : decimal) :
  fetched e = Some html -> html <> [] -> snd (script_extract html) = inr (Some V) ->
  ext_of V <> None -> (forall n, dec_round_int V = Some n -> 10 ^ DEFAULT_PREC <= Z.abs n) ->
  main e = ([], inl InvalidOperation).
Proof.
  intros Hf Hne Hx Hext Hbig.
  assert (HP : dec_quantize1 V = inl InvalidOperation).
  { destruct V as [neg c ex|neg|neg sg pl]; [|reflexivity|simpl in Hext; congruence].
    specialize (Hbig _ eq_refl). pose proof (quant_coef_nonneg c ex) as Hc.
    unfold dec_quantize1. cbv beta iota zeta.
    match goal with |- (if ?b then _ else _) = _ => replace b with true; [reflexivity|] end.
    symmetry. apply Z.leb_le. unfold sgnZ in Hbig. destruct neg; lia. }
  unfold main. rewrite Hf. destruct html as [|h t]; [congruence|].
  run_main. rewrite Hx. run_main. rewrite HP. reflexivity.
Qed.

(** *** What the strategies return *)

Lemma table_row_value_min k tr v : table_row_value k tr = inr (Some v) -> dec_leb DEC_1000 v = true.
Proof.
  unfold table_row_value. destruct (row_number_text k tr); [|discriminate].
  destruct (turkish_number_to_decimal _) as [val|]; [|discriminate].
  unfold dec_ge, ret, raise, bind.
  destruct (dec_cmp val DEC_1000) as [cmp|] eqn:Hc; [|discriminate].
  destruct cmp; intros H; try discriminate; injection H as <-;
    unfold dec_leb; rewrite dec_cmp_antisym, Hc; reflexivity.
Qed.

Lemma table_rows_min k rows v : table_rows k rows = inr (Some v) -> dec_leb DEC_1000 v = true.
Proof.
  induction rows as [|tr rs IH]; cbn [table_rows]; unfold bind, ret; [discriminate|].
  destruct (table_row_value k tr) as [ex|[w|]] eqn:H; [discriminate| |exact IH].
  intros E. injection E as <-. apply (table_row_value_min _ _ _ H).
Qed.

Lemma tables_loop_min ts v : tables_loop ts = inr (Some v) -> dec_leb DEC_1000 v = true.
Proof.
  induction ts as [|t ts IH]; cbn [tables_loop]; unfold bind, ret; [discriminate|].
  destruct (table_value t) as [ex|[w|]] eqn:H; [discriminate| |exact IH].
  intros E. injection E as <-. unfold table_value in H.
  destruct (yeni_index_from 0 (header_texts t)); [|discriminate].
  apply (table_rows_min _ _ _ H).
Qed.

Lemma via_table_min html v : parse_price_via_table html = inr (Some v) -> dec_leb DEC_1000 v = true.
Proof. apply tables_loop_min. Qed.

Lemma neighborhood_min html v : parse_price_neighborhood html = inr (Some v) -> dec_leb DEC_1000 v = true.
Proof.
  intros H. destruct (windows_loop_first _ _ _ H) as (pre & st & post & _ & _ & Hst).
  destruct (window_value_max _ _ Hst) as (parsed & Hp & Hin & _).
  exact (parse_candidates_min _ _ Hp v Hin).
Qed.

(** X9: the values the table strategy and the neighborhood scan return are
    at least 1000 (not a NaN; the table strategy lets +Infinity through). *)
Theorem strategies_at_least_1000 (html : pystr) :
  (forall v, parse_price_via_table html = inr (Some v) -> dec_leb DEC_1000 v = true) /\
  (forall v, parse_price_neighborhood html = inr (Some v) -> dec_leb DEC_1000 v = true).
Proof. split; [apply via_table_min | apply neighborhood_min]. Qed.

Lemma class_run_spec p s b k : (k < class_run p s b)%nat ->
  exists c, nth_error s k = Some c /\ p c = true.
Proof.
  revert s k. induction b as [|b IH]; intros s k H; destruct s as [|c s]; simpl in H; try lia.
  case_eq (p c); intros Hp; rewrite Hp in H; [|lia].
  destruct k as [|k]; [exists c; auto|]. simpl. apply IH. lia.
Qed.

Lemma first_some_in {A B} (f : A -> option B) l y : first_some f l = Some y ->
  exists x, In x l /\ f x = Some y.
Proof.
  induction l as [|x l IH]; simpl; [discriminate|].
  destruct (f x) eqn:Hf; intros H.
  - injection H as <-. exists x. auto.
  - destruct (IH H) as (z & Hz & Hfz). exists z. auto.
Qed.

(** Matching items that consume only [q]-characters and touch no group. *)
Lemma re_mat_plain_prefix q r1 : (forall it, In it r1 -> item_within q it) ->
  forall r2 s i g res, re_mat (r1 ++ r2) s i g = Some res ->
  exists j, (i <= j)%nat /\
    (forall k, (i <= k < j)%nat -> exists c, nth_error s k = Some c /\ q c = true) /\
    re_mat r2 s j g = Some res.
Proof.
  induction r1 as [|it r1 IH]; intros Hit r2 s i g res H.
  - exists i. split; [lia|]. split; [intros; lia|]. exact H.
  - assert (Hi : item_within q it) by (apply Hit; left; reflexivity).
    assert (Hr : forall it', In it' r1 -> item_within q it') by (intros; apply Hit; right; auto).
    destruct it as [p|p lo hi greedy| | |]; cbn [re_mat app] in H; simpl in Hi.
    + destruct (nth_error s i) as [c|] eqn:Hc; [|discriminate].
      case_eq (p c); intros Hp; rewrite Hp in H; [|discriminate].
      destruct (IH Hr _ _ _ _ _ H) as (j & Hij & Hk & Hj).
      exists j. split; [lia|]. split; [|exact Hj].
      intros k Hk'. destruct (Nat.eq_dec k i) as [->|Hne]; [exists c; auto|]. apply Hk; lia.
    + remember (class_run p (skipn i s) (match hi with Some h => h | None => List.length s end)) as n eqn:Hn.
      revert H. destruct (Nat.ltb_spec n lo) as [Hlo|Hlo]; intros H; [discriminate|].
      apply first_some_in in H. destruct H as (k & Hk & H).
      assert (Hk' : In k (seq lo (S n - lo))) by (destruct greedy; [apply in_rev; exact Hk | exact Hk]).
      apply in_seq in Hk'.
      destruct (IH Hr _ _ _ _ _ H) as (j & Hij & Hq & Hj).
      exists j. split; [lia|]. split; [|exact Hj].
      intros m Hm. destruct (Nat.lt_ge_cases m (i + k)) as [Hlt|Hge]; [|apply Hq; lia].
      destruct (class_run_spec p (skipn i s) (match hi with Some h => h | None => List.length s end) (m - i))
        as (c & Hc & Hpc); [rewrite <- Hn; lia|].
      rewrite nth_error_skipn in Hc. replace (i + (m - i))%nat with m in Hc by lia.
      exists c. auto.
    + contradiction.
    + contradiction.
    + destruct (Nat.eqb i (List.length s)); [|discriminate].
      destruct (IH Hr _ _ _ _ _ H) as (j & Hij & Hk & Hj). exists j. auto.
Qed.

Lemma re_mat_plain q r : (forall it, In it r -> item_within q it) ->
  forall s i g res, re_mat r s i g = Some res -> snd res = g.
Proof.
  intros Hr s i g res H. rewrite <- (app_nil_r r) in H.
  destruct (re_mat_plain_prefix q r Hr [] _ _ _ _ H) as (j & _ & _ & Hj).
  simpl in Hj. injection Hj as <-. reflexivity.
Qed.

Lemma plain_within r : forallb plain_item r = true -> forall it, In it r -> item_within (fun _ => true) it.
Proof.
  intros H it Hit. rewrite forallb_forall in H. specialize (H it Hit).
  destruct it; simpl in *; auto; discriminate.
Qed.

Lemma slice_in s a b c : In c (slice s a b) -> exists k, (a <= k < b)%nat /\ nth_error s k = Some c.
Proof.
  unfold slice. intros H. apply In_nth_error in H. destruct H as (m & Hm).
  rewrite nth_error_firstn in Hm. destruct (Nat.ltb_spec m (b - a)); [|discriminate].
  rewrite nth_error_skipn in Hm. exists (a + m)%nat. split; [lia|exact Hm].
Qed.

(** The text of group 1 of a match consists of characters of the group's
    class. *)
Lemma match_at_group q pre mid post s i m t :
  forallb plain_item pre = true -> forallb plain_item post = true ->
  (forall it, In it mid -> item_within q it) ->
  match_at (pre ++ ROpen :: mid ++ RClose :: post) s i = Some m -> m_group m = Some t ->
  forall c, In c t -> q c = true.
Proof.
  intros Hpre Hpost Hmid. unfold match_at.
  destruct (re_mat (pre ++ ROpen :: mid ++ RClose :: post) s i (None, None))
    as [[j [[a|] [b|]]]|] eqn:H; intros Hm; try discriminate; injection Hm as <-;
    simpl; intros Ht; try discriminate.
  injection Ht as <-.
  destruct (re_mat_plain_prefix (fun _ => true) pre (plain_within pre Hpre) _ _ _ _ _ H)
    as (j1 & _ & _ & H1).
  cbn [re_mat fst snd] in H1.
  destruct (re_mat_plain_prefix q mid Hmid _ _ _ _ _ H1) as (j2 & _ & Hq & H2).
  cbn [re_mat fst snd] in H2.
  pose proof (re_mat_plain (fun _ => true) post (plain_within post Hpost) _ _ _ _ H2) as E.
  simpl in E. injection E as -> ->.
  intros c Hc. destruct (slice_in _ _ _ _ Hc) as (k & Hk & Hck).
  destruct (Hq k Hk) as (c' & Hc' & Hqc). rewrite Hck in Hc'. injection Hc' as <-. exact Hqc.
Qed.

Lemma search_group_chars q pre mid post s t :
  forallb plain_item pre = true -> forallb plain_item post = true ->
  (forall it, In it mid -> item_within q it) ->
  group1 (re_search (pre ++ ROpen :: mid ++ RClose :: post) s) = Some t ->
  forall c, In c t -> q c = true.
Proof.
  intros Hpre Hpost Hmid. unfold group1, re_search, re_search_from.
  destruct (first_some _ _) as [m|] eqn:H; [|discriminate].
  apply first_some_in in H. destruct H as (i & _ & Hi).
  intros Ht c Hc. exact (match_at_group q pre mid post s i m t Hpre Hpost Hmid Hi Ht c Hc).
Qed.

Lemma re_finditer_aux_in fuel r s : forall pos m, In m (re_finditer_aux fuel r s pos) ->
  exists i, match_at r s i = Some m.
Proof.
  induction fuel as [|f IH]; simpl; intros pos m H; [contradiction|].
  destruct (re_search_from r s pos) as [m'|] eqn:Hs; [|contradiction].
  destruct H as [<-|H].
  - unfold re_search_from in Hs. apply first_some_in in Hs. destruct Hs as (i & _ & Hi). eauto.
  - eapply IH; eauto.
Qed.

Lemma findall_chars q pre mid post s t :
  forallb plain_item pre = true -> forallb plain_item post = true ->
  (forall it, In it mid -> item_within q it) ->
  In t (re_findall (pre ++ ROpen :: mid ++ RClose :: post) s) ->
  forall c, In c t -> q c = true.
Proof.
  intros Hpre Hpost Hmid Ht. unfold re_findall, re_finditer in Ht.
  apply in_map_iff in Ht. destruct Ht as (m & Hmt & Hm).
  apply re_finditer_aux_in in Hm. destruct Hm as (i & Hi).
  destruct (m_group m) as [g|] eqn:Hg; subst t; [|intros c []].
  intros c Hc. exact (match_at_group q pre mid post s i m g Hpre Hpost Hmid Hi Hg c Hc).
Qed.

Lemma YENI_RE_shape :
  YENI_RE = (lits_ci "YEN" ++ [RChar yen_i; RRep space_colon 0 None true])
            ++ ROpen :: [RRep num_char 1 None true] ++ RClose :: [].
Proof. unfold YENI_RE. rewrite <- app_assoc. reflexivity. Qed.

Lemma FALLBACK_REGEX_shape :
  FALLBACK_REGEX = (lits_ci "Cumhuriyet" ++ [RRep any_char 0 (Some 4000%nat) false] ++ lits_ci "YEN"
                    ++ [RChar yen_i; RRep space_colon 0 None true])
                   ++ ROpen :: [RRep num_char 1 None true] ++ RClose :: [].
Proof. unfold FALLBACK_REGEX. rewrite <- !app_assoc. reflexivity. Qed.

Lemma YENI_BLOCK_RE_shape :
  YENI_BLOCK_RE = (lits_ci "YEN" ++ [RChar yen_i; RRep py_isspace 0 None true;
                                     RRep colon_dash 0 (Some 1%nat) true; RRep py_isspace 0 None true])
                  ++ ROpen :: [RRep num_char 3 None true] ++ RClose :: [].
Proof. unfold YENI_BLOCK_RE. rewrite <- app_assoc. reflexivity. Qed.

Lemma NUMBER_BLOCK_RE_shape :
  NUMBER_BLOCK_RE = [] ++ ROpen :: [RChar is_digit; RRep num_char 2 None true] ++ RClose :: [].
Proof. reflexivity. Qed.

Lemma num_items_within k : forall it, In it [RRep num_char k None true] -> item_within num_char it.
Proof. intros it [<-|[]]. simpl. auto. Qed.

Lemma number_block_items_within :
  forall it, In it [RChar is_digit; RRep num_char 2 None true] -> item_within num_char it.
Proof.
  intros it [<-|[<-|[]]]; simpl; intros c Hc; [|exact Hc].
  unfold num_char. rewrite Hc. reflexivity.
Qed.

Lemma lstrip_ws_in s c : In c (lstrip_ws s) -> In c s.
Proof.
  induction s as [|x s IH]; simpl; [auto|].
  destruct (py_isspace x); [intros H; right; auto | auto].
Qed.

Lemma py_strip_in s c : In c (py_strip s) -> In c s.
Proof.
  unfold py_strip. intros H. rewrite <- in_rev in H. apply lstrip_ws_in in H.
  rewrite <- in_rev in H. apply lstrip_ws_in in H. exact H.
Qed.

Lemma replace_char_in a b s c : In c (replace_char a b s) -> c = b \/ In c s.
Proof.
  unfold replace_char. intros H. apply in_map_iff in H. destruct H as (x & <- & Hx).
  destruct (x =? a); [left; reflexivity | right; exact Hx].
Qed.

Lemma remove_char_in a s c : In c (remove_char a s) -> In c s.
Proof. unfold remove_char. intros H. apply filter_In in H. apply H. Qed.

Lemma num_char_ascii_low c : num_char c = true -> c <= 127 -> c < 65 /\ c <> 45 /\ c <> 43.
Proof.
  intros H Hc. unfold num_char, is_digit in H.
  rewrite ?orb_true_iff, ?andb_true_iff, ?Z.leb_le, ?Z.eqb_eq in H.
  destruct H as [[[H|H]|H]|H]; try lia.
  unfold py_isspace in H. rewrite ?orb_true_iff, ?andb_true_iff, ?Z.leb_le, ?Z.eqb_eq in H. lia.
Qed.

Lemma numeric_as_ascii_low u a : (forall c, In c u -> num_char c = true) ->
  numeric_as_ascii u = Some a -> forall c, In c a -> c < 65 /\ c <> 45 /\ c <> 43.
Proof.
  revert a. induction u as [|ch r IH]; intros a Hu H; cbn [numeric_as_ascii] in H.
  - injection H as <-. intros c [].
  - assert (Hr : forall c, In c r -> num_char c = true) by (intros; apply Hu; right; auto).
    revert H. destruct (ch =? 95); [apply IH, Hr|].
    destruct ((0 <? ch) && (ch <=? 127)) eqn:Hasc.
    + destruct (numeric_as_ascii r) as [a'|] eqn:Hr'; simpl; intros H; [|discriminate].
      injection H as <-. intros c [<-|Hc]; [|apply (IH a' Hr eq_refl c Hc)].
      apply num_char_ascii_low; [apply Hu; left; reflexivity|].
      apply andb_true_iff in Hasc. destruct Hasc as [_ H2]. apply Z.leb_le in H2. exact H2.
    + destruct (py_isspace ch) eqn:Hs.
      * destruct (numeric_as_ascii r) as [a'|] eqn:Hr'; simpl; intros H; [|discriminate].
        injection H as <-. intros c [<-|Hc]; [lia|apply (IH a' Hr eq_refl c Hc)].
      * exfalso. pose proof (Hu ch (or_introl eq_refl)) as Hn.
        unfold num_char, is_digit in Hn. rewrite Hs, orb_false_r in Hn.
        rewrite ?orb_true_iff, ?andb_true_iff, ?Z.leb_le, ?Z.eqb_eq in Hn.
        apply andb_false_iff in Hasc.
        destruct Hasc as [Hx|Hx]; [apply Z.ltb_ge in Hx | apply Z.leb_gt in Hx]; lia.
Qed.

Lemma mpd_parse_low a d : (forall c, In c a -> c < 65 /\ c <> 45 /\ c <> 43) ->
  mpd_parse a = Some d -> exists c e, d = Dfin false c e.
Proof.
  intros Ha.
  assert (Hsign : parse_sign a = (false, a)).
  { destruct a as [|c r]; [reflexivity|]. destruct (Ha c (or_introl eq_refl)) as (_ & H45 & H43).
    simpl. rewrite (proj2 (Z.eqb_neq c 43) H43), (proj2 (Z.eqb_neq c 45) H45). reflexivity. }
  unfold mpd_parse. rewrite Hsign. cbv beta iota.
  rewrite (prefix_ci_low (pystr_of "nan")), (prefix_ci_low (pystr_of "snan")),
    (prefix_ci_low (pystr_of "inf"))
    by first [reflexivity | vm_compute; intros Hx; discriminate Hx | intros c Hc; apply (Ha c Hc)].
  destruct (span_digits a) as [ids s2]. cbv beta iota.
  destruct (match s2 with c :: s3 => if c =? 46 then span_digits s3 else ([], s2) | [] => ([], []) end)
    as [fds s4].
  destruct (ids ++ fds) as [|x ds]; [discriminate|].
  destruct (match s4 with [] => Some 0 | c :: s5 => if (c =? 101) || (c =? 69) then parse_exponent s5 else None end)
    as [ex|]; [|discriminate].
  match goal with |- (if ?b then _ else _) = _ -> _ => destruct b end; [|discriminate].
  intros H. injection H as <-. eauto.
Qed.

Lemma py_Decimal_nonneg u d : (forall c, In c u -> num_char c = true) ->
  py_Decimal u = Some d -> exists c e, d = Dfin false c e.
Proof.
  intros Hu. unfold py_Decimal. destruct (numeric_as_ascii (py_strip u)) as [a|] eqn:Ha; [|discriminate].
  apply mpd_parse_low. apply (numeric_as_ascii_low (py_strip u)); auto.
  intros c Hc. apply Hu, py_strip_in, Hc.
Qed.

(** A number text made of the characters [[0-9.,\s]] never reads as a
    negative number, an infinity or a NaN. *)
Lemma turkish_nonneg t d : (forall c, In c t -> num_char c = true) ->
  turkish_number_to_decimal t = Some d -> exists c e, d = Dfin false c e.
Proof.
  intros Ht. unfold turkish_number_to_decimal. cbv zeta. apply py_Decimal_nonneg.
  intros c Hc. apply replace_char_in in Hc. destruct Hc as [->|Hc]; [reflexivity|].
  apply remove_char_in, remove_char_in, replace_char_in in Hc. destruct Hc as [->|Hc]; [reflexivity|].
  apply Ht, py_strip_in, Hc.
Qed.

Lemma yeni_value_nonneg t v : yeni_value t = Some v -> exists c e, v = Dfin false c e.
Proof.
  unfold yeni_value. destruct (group1 (re_search YENI_RE t)) as [g|] eqn:Hg; [|discriminate].
  apply turkish_nonneg. rewrite YENI_RE_shape in Hg.
  refine (search_group_chars num_char _ _ _ _ _ _ _ _ Hg); [reflexivity | reflexivity | apply num_items_within].
Qed.

Lemma bs4_nonneg html v : parse_price_with_bs4 html = Some v -> exists c e, v = Dfin false c e.
Proof.
  unfold parse_price_with_bs4. induction (bs4_candidates html) as [|n ns IH]; simpl; [discriminate|].
  destruct (bs4_node_value n) as [w|] eqn:Hn; [|exact IH].
  intros E. injection E as <-. unfold bs4_node_value in Hn.
  destruct (match soup_find_parent_named L n "tr" with Some row => Some row | None => soup_parent L n end)
    as [c|]; [|discriminate].
  destruct (yeni_value (get_text c)) as [y|] eqn:Hy.
  - injection Hn as <-. apply (yeni_value_nonneg _ _ Hy).
  - destruct (soup_parent L c); [|discriminate]. apply (yeni_value_nonneg _ _ Hn).
Qed.

Lemma regex_nonneg html v : parse_price_with_regex html = Some v -> exists c e, v = Dfin false c e.
Proof.
  unfold parse_price_with_regex. destruct (group1 (re_search FALLBACK_REGEX html)) as [g|] eqn:Hg;
    [|discriminate].
  apply turkish_nonneg. rewrite FALLBACK_REGEX_shape in Hg.
  refine (search_group_chars num_char _ _ _ _ _ _ _ _ Hg); [reflexivity | reflexivity | apply num_items_within].
Qed.

Lemma window_candidate_chars wt t : In t (window_candidates wt) -> forall c, In c t -> num_char c = true.
Proof.
  unfold window_candidates. intros H. apply in_app_or in H. destruct H as [H|H].
  - destruct (group1 (re_search YENI_BLOCK_RE wt)) as [g|] eqn:Hg; [|contradiction].
    destruct H as [<-|[]]. rewrite YENI_BLOCK_RE_shape in Hg.
    refine (search_group_chars num_char _ _ _ _ _ _ _ _ Hg); [reflexivity | reflexivity | apply num_items_within].
  - rewrite NUMBER_BLOCK_RE_shape in H.
    refine (findall_chars num_char _ _ _ _ _ _ _ _ H); [reflexivity | reflexivity | apply number_block_items_within].
Qed.

Lemma parse_candidates_from cs ps : parse_candidates cs = inr ps ->
  forall x, In x ps -> exists c, In c cs /\ accept_candidate c = inr (Some x).
Proof.
  revert ps. induction cs as [|c cs IH]; simpl; intros ps H.
  - injection H as <-. intros x [].
  - destruct (accept_candidate c) as [ex|o] eqn:Hc; [discriminate|]. simpl in H.
    destruct (parse_candidates cs) as [ex|rest]; [discriminate|]. simpl in H.
    injection H as <-. intros x Hx.
    assert (Hr : In x rest -> exists c', In c' (c :: cs) /\ accept_candidate c' = inr (Some x)).
    { intros Hx'. destruct (IH rest eq_refl x Hx') as (c' & Hc' & Ha). exists c'. simpl. auto. }
    destruct o as [v|]; [destruct Hx as [<-|Hx]|]; auto.
    exists c. simpl. auto.
Qed.

Lemma accept_candidate_nonneg c x : (forall y, In y c -> num_char y = true) ->
  accept_candidate c = inr (Some x) -> exists m e, x = Dfin false m e.
Proof.
  intros Hc. unfold accept_candidate.
  destruct (re_fullmatch ZEROS_RE _); [discriminate|].
  destruct (turkish_number_to_decimal _) as [val|] eqn:Ht; [|discriminate].
  assert (Hv : exists m e, val = Dfin false m e).
  { refine (turkish_nonneg _ _ _ Ht). intros y Hy.
    apply py_strip_in in Hy; apply replace_char_in in Hy; destruct Hy as [->|Hy];
      [reflexivity | apply Hc, Hy]. }
  unfold dec_lt, ret, raise, bind.
  destruct (dec_cmp val DEC_1000) as [[]|]; intros H; try discriminate; injection H as <-; exact Hv.
Qed.

Lemma neighborhood_nonneg html v : parse_price_neighborhood html = inr (Some v) ->
  exists c e, v = Dfin false c e.
Proof.
  intros H. destruct (windows_loop_first _ _ _ H) as (pre & st & post & _ & _ & Hst).
  destruct (window_value_max _ _ Hst) as (parsed & Hp & Hin & _).
  destruct (parse_candidates_from _ _ Hp v Hin) as (c & Hc & Ha).
  apply (accept_candidate_nonneg c v (window_candidate_chars _ _ Hc) Ha).
Qed.

(** X10: the tagged-text strategy, the regex window and the neighborhood
    scan only return finite, non-negative values: the texts they read are
    made of the characters [[0-9.,\s]]. *)
Theorem strategies_nonneg_finite (html : pystr) :
  (forall v, parse_price_with_bs4 html = Some v -> exists c e, v = Dfin false c e) /\
  (forall v, parse_price_with_regex html = Some v -> exists c e, v = Dfin false c e) /\
  (forall v, parse_price_neighborhood html = inr (Some v) -> exists c e, v = Dfin false c e).
Proof. split; [|split]; [apply bs4_nonneg | apply regex_nonneg | apply neighborhood_nonneg]. Qed.

(** *** What a run does *)

Lemma extract_defined html V : snd (script_extract html) = inr (Some V) -> ext_of V <> None.
Proof.
  unfold script_extract, extract_price.
  destruct (parse_price_via_table html) as [ex|[v|]] eqn:H1; simpl; [discriminate| |].
  { intros E. injection E as <-. exact (proj2 (dec_le_defined _ _ (via_table_min _ _ H1))). }
  destruct (parse_price_with_bs4 html) as [v|] eqn:H2; simpl.
  { intros E. injection E as <-. destruct (bs4_nonneg _ _ H2) as (c & e & ->). discriminate. }
  destruct (parse_price_with_regex html) as [v|] eqn:H3; simpl.
  { intros E. injection E as <-. destruct (regex_nonneg _ _ H3) as (c & e & ->). discriminate. }
  intros E. exact (proj2 (dec_le_defined _ _ (neighborhood_min _ _ E))).
Qed.

(** X11: a run either notifies nothing and writes nothing, or writes one
    record and exits with 0, or sends one message, then writes one record
    and exits with 0: a message is never sent without the new price being
    stored after it. *)
Theorem main_events_shape (e : env) :
  fst (main e) = [] \/
  (exists lp ts, main e = ([WriteState lp ts], inr 0)) \/
  (exists msg lp ts, main e = ([Notify msg; WriteState lp ts], inr 0)).
Proof.
  unfold main. destruct (fetched e) as [[|h t]|]; [left; reflexivity| |left; reflexivity].
  run_main. destruct (snd (script_extract (h :: t))) as [ex|[V|]] eqn:Hx; run_main;
    [left; reflexivity| |left; reflexivity].
  destruct (dec_quantize1 V) as [ex|P] eqn:HP; run_main; [left; reflexivity|].
  destruct (quantize1_cases V P HP) as [(neg & c & -> & Hc & _)|(_ & _ & Hext & _)];
    [|exfalso; exact (extract_defined _ _ Hx Hext)].
  destruct (quantized_props neg c Hc) as (HPP & Hi & Hr & _).
  assert (Hb : Z.abs (sgnZ neg c) < 10 ^ DEFAULT_PREC) by (unfold sgnZ; destruct neg; lia).
  pose proof (format_tl_round _ _ Hr Hb) as Hfmt.
  destruct (load_last_price (state e)) as [last|]; run_main.
  - destruct (dec_ne (Dfin neg (Z.to_N c) 0) last) as [ex|[|]]; run_main; [left; reflexivity| |].
    + destruct (format_tl last) as [ex|sl]; run_main; [left; reflexivity|].
      rewrite Hfmt. run_main. rewrite HPP. run_main. rewrite Hi. run_main.
      right; right. eexists _, _, _. reflexivity.
    + rewrite Hfmt. run_main. left; reflexivity.
  - rewrite Hfmt. run_main. rewrite HPP. run_main. rewrite Hi. run_main.
    right; left. eexists _, _. reflexivity.
Qed.

(** *** Counting separators *)

Lemma replace_char_cnt_other a b s x : x <> a -> x <> b ->
  count_occ Z.eq_dec (replace_char a b s) x = count_occ Z.eq_dec s x.
Proof.
  intros Ha Hb. induction s as [|c s IH]; [reflexivity|].
  unfold replace_char in *. simpl.
  destruct (Z.eqb_spec c a) as [->|Hc].
  - destruct (Z.eq_dec b x), (Z.eq_dec a x); congruence.
  - destruct (Z.eq_dec c x); rewrite IH; reflexivity.
Qed.

Lemma replace_char_cnt_to a b s : a <> b ->
  count_occ Z.eq_dec (replace_char a b s) b = (count_occ Z.eq_dec s a + count_occ Z.eq_dec s b)%nat.
Proof.
  intros Hab. induction s as [|c s IH]; [reflexivity|].
  unfold replace_char in *. simpl.
  destruct (Z.eqb_spec c a) as [->|Hc].
  - destruct (Z.eq_dec b b), (Z.eq_dec a a), (Z.eq_dec a b); try congruence. rewrite IH. lia.
  - destruct (Z.eq_dec c b), (Z.eq_dec c a); try congruence; rewrite IH; lia.
Qed.

Lemma remove_char_cnt_other a s x : x <> a ->
  count_occ Z.eq_dec (remove_char a s) x = count_occ Z.eq_dec s x.
Proof.
  intros Hx. induction s as [|c s IH]; [reflexivity|].
  unfold remove_char in *. simpl.
  destruct (Z.eqb_spec c a) as [->|Hc]; simpl.
  - destruct (Z.eq_dec a x); congruence.
  - destruct (Z.eq_dec c x); rewrite IH; reflexivity.
Qed.

Lemma remove_char_cnt_self a s : count_occ Z.eq_dec (remove_char a s) a = 0%nat.
Proof.
  induction s as [|c s IH]; [reflexivity|].
  unfold remove_char in *. simpl.
  destruct (Z.eqb_spec c a) as [->|Hc]; simpl; [exact IH|].
  destruct (Z.eq_dec c a); [congruence|exact IH].
Qed.

(** X12: a number text with two or more ',' is never read as a number:
    [_turkish_number_to_decimal] gives [None] (e.g. for "1,234,567"). *)
Theorem turkish_two_commas_rejected (num_text : pystr) :
  (2 <= count_occ Z.eq_dec num_text 44%Z)%nat -> turkish_number_to_decimal num_text = None.
Proof.
  intros H. unfold turkish_number_to_decimal. cbv zeta.
  destruct (py_Decimal _) as [d|] eqn:Hd; [exfalso|reflexivity].
  apply py_Decimal_cnt in Hd. destruct Hd as [_ H46].
  rewrite replace_char_cnt_to, remove_char_cnt_self in H46 by lia.
  rewrite remove_char_cnt_other, remove_char_cnt_other, replace_char_cnt_other, py_strip_cnt in H46
    by first [reflexivity | lia].
  lia.
Qed.
End Script.

(** ** Concrete runs

    With the ASCII tables and [plain_soup]: the pages below are plain
    text. *)

(** C1: Regex-Window and Tagged-Text return 5 for "Cumhuriyet YENI 5",
    and the extraction sequence passes it on; only Structured-Table and
    Neighborhood-Scan compare with 1000. *)
Theorem small_value_extracted :
  parse_price_with_regex ascii_only_decimal page_small = Some (Dfin false 5 0) /\
  parse_price_with_bs4 ascii_only_decimal plain_soup page_small = Some (Dfin false 5 0) /\
  script_extract ascii_only_decimal ascii_upper plain_soup page_small
    = ([StructuredTable; TaggedText], inr (Some (Dfin false 5 0))).
Proof. split; [|split]; vm_compute; reflexivity. Qed.

(** The extraction sequence stops at Tagged-Text when it finds a value. *)
Lemma script_extract_order_witness :
  parse_price_via_table ascii_only_decimal ascii_upper plain_soup page_small = inr None /\
  script_extract ascii_only_decimal ascii_upper plain_soup page_small
    = ([StructuredTable; TaggedText], inr (Some (Dfin false 5 0))).
Proof.
  split; [vm_compute; reflexivity|].
  apply (proj1 (proj2 (script_extract_order ascii_only_decimal ascii_upper plain_soup page_small)));
    vm_compute; reflexivity.
Defined.

(** In the window of "Cumhuriyet YENI 29.650 ESKI 31.000" the block after
    "YENI" is accepted as 29650, yet Neighborhood-Scan gives 31000. *)
Lemma neighborhood_anchor_not_preferred :
  group1 (re_search YENI_BLOCK_RE (window_text plain_soup page_two_numbers 0)) = Some (pystr_of "29.650 ") /\
  accept_candidate ascii_only_decimal (pystr_of "29.650 ") = inr (Some (Dfin false 29650 0)) /\
  parse_price_neighborhood ascii_only_decimal plain_soup page_two_numbers = inr (Some (Dfin false 31000 0)).
Proof. split; [|split]; vm_compute; reflexivity. Qed.

Lemma neighborhood_window_max_witness :
  parse_price_neighborhood ascii_only_decimal plain_soup page_two_numbers = inr (Some (Dfin false 31000 0)) /\
  exists pre st post parsed,
    map m_start (re_finditer CUMHURIYET_RE page_two_numbers) = pre ++ st :: post /\
    (forall s, In s pre -> window_value ascii_only_decimal (window_text plain_soup page_two_numbers s) = inr None) /\
    parse_candidates ascii_only_decimal (window_candidates (window_text plain_soup page_two_numbers st)) = inr parsed /\
    In (Dfin false 31000 0) parsed /\
    (forall x, In x parsed -> dec_leb x (Dfin false 31000 0) = true) /\
    (forall g a, group1 (re_search YENI_BLOCK_RE (window_text plain_soup page_two_numbers st)) = Some g ->
       accept_candidate ascii_only_decimal g = inr (Some a) -> In a parsed /\ dec_leb a (Dfin false 31000 0) = true).
Proof.
  split; [vm_compute; reflexivity|].
  apply neighborhood_window_max. vm_compute; reflexivity.
Defined.

(** Regex-Window finds nothing in "Cumhuriyet YENI . Cumhuriyet YENI 30000":
    its first match holds ". ", which does not normalize, while a match at
    the second "Cumhuriyet" holds "30000", which does. Tagged-Text finds
    nothing either: the page's one text holds a later "YENI 30000" match,
    but only the first match is normalized. *)
Lemma regex_first_match_only :
  parse_price_with_regex ascii_only_decimal page_first_unparsable = None /\
  group1 (match_at FALLBACK_REGEX page_first_unparsable 18) = Some (pystr_of "30000") /\
  turkish_number_to_decimal ascii_only_decimal (pystr_of "30000") = Some (Dfin false 30000 0) /\
  parse_price_with_bs4 ascii_only_decimal plain_soup page_first_unparsable = None /\
  group1 (match_at YENI_RE page_first_unparsable 29) = Some (pystr_of "30000").
Proof. split; [|split; [|split; [|split]]]; vm_compute; reflexivity. Qed.

Lemma unparsable_candidates_witness :
  group1 (re_search FALLBACK_REGEX page_first_unparsable) = Some (pystr_of ". ") /\
  turkish_number_to_decimal ascii_only_decimal (pystr_of ". ") = None /\
  parse_price_with_regex ascii_only_decimal page_first_unparsable = None.
Proof.
  split; [vm_compute; reflexivity|]. split; [vm_compute; reflexivity|].
  apply (proj2 (proj2 (proj2 (proj2 (proj2
    (unparsable_candidates ascii_only_decimal plain_soup page_first_unparsable))))) (pystr_of ". "));
    vm_compute; reflexivity.
Defined.

Lemma main_change_notified_witness :
  exists msg,
    main ascii_only_decimal ascii_upper plain_soup env_change
    = ([Notify msg; WriteState 29800 (utcnow_iso env_change ++ pystr_of "Z")], inr 0) /\
    py_contains (pystr_of "29.650") msg = true /\ py_contains (pystr_of "29.800") msg = true.
Proof.
  apply (main_change_notified ascii_only_decimal ascii_upper plain_soup env_change page_29800
           (Dfin false 29800 0) (Dfin false 29650 0));
    vm_compute; try reflexivity; discriminate.
Defined.

(** A first run on "29.650,50" finds 29650.50 and stores 29650. *)
Lemma first_record_rounded :
  snd (script_extract ascii_only_decimal ascii_upper plain_soup page_29650_50)
    = inr (Some (Dfin false 2965050 (-2))) /\
  main ascii_only_decimal ascii_upper plain_soup env_first_fraction
    = ([WriteState 29650 (utcnow_iso env_first_fraction ++ pystr_of "Z")], inr 0).
Proof. split; vm_compute; reflexivity. Qed.

Lemma main_first_record_witness :
  main ascii_only_decimal ascii_upper plain_soup env_first
    = ([WriteState 29800 (utcnow_iso env_first ++ pystr_of "Z")], inr 0).
Proof.
  apply (main_first_record ascii_only_decimal ascii_upper plain_soup env_first page_29800
           (Dfin false 29800 0) 29800);
    vm_compute; try reflexivity; discriminate.
Defined.

(** A stored 29650.5 and a value found of 29650.5, equal, still give a
    notification and a write of 29650. *)
Lemma equal_fraction_still_notified :
  load_last_price ascii_only_decimal (state env_equal_fraction) = Some (Dfin false 296505 (-1)) /\
  snd (script_extract ascii_only_decimal ascii_upper plain_soup page_29650_5)
    = inr (Some (Dfin false 296505 (-1))) /\
  exists msg,
    main ascii_only_decimal ascii_upper plain_soup env_equal_fraction
    = ([Notify msg; WriteState 29650 (utcnow_iso env_equal_fraction ++ pystr_of "Z")], inr 0).
Proof. split; [|split]; [vm_compute; reflexivity..|]. eexists. vm_compute. reflexivity. Qed.

(** A stored 29650 and a value found of 29650: nothing happens; a stored
    29650.5 and a value found of 29650.5: a notification and a write of
    29650. *)
Lemma main_unchanged_whole_witness :
  fst (main ascii_only_decimal ascii_upper plain_soup env_same) = [] /\
  exists msg,
    main ascii_only_decimal ascii_upper plain_soup env_equal_fraction
    = ([Notify msg; WriteState 29650 (utcnow_iso env_equal_fraction ++ pystr_of "Z")], inr 0).
Proof.
  split.
  - apply (proj1 (main_unchanged_whole ascii_only_decimal ascii_upper plain_soup env_same page_29650
             (Dfin false 29650 0) (Dfin false 29650 0) eq_refl ltac:(vm_compute; reflexivity)
             ltac:(vm_compute; reflexivity) ltac:(vm_compute; reflexivity)) 29650).
    vm_compute; reflexivity.
  - apply (proj2 (main_unchanged_whole ascii_only_decimal ascii_upper plain_soup env_equal_fraction
             page_29650_5 (Dfin false 296505 (-1)) (Dfin false 296505 (-1)) eq_refl
             ltac:(vm_compute; reflexivity) ltac:(vm_compute; reflexivity) ltac:(vm_compute; reflexivity)));
      [discriminate | | vm_compute; reflexivity | vm_compute; reflexivity].
    intros k Hk. pose proof (round_of_eq_int _ _ Hk) as Hr. vm_compute in Hr.
    injection Hr as <-. vm_compute in Hk. discriminate Hk.
Defined.

Lemma main_without_price_witness :
  main ascii_only_decimal ascii_upper plain_soup env_no_marker = ([], inr 0).
Proof.
  apply main_without_price. right. right. exists page_no_marker.
  split; [reflexivity|]. repeat split; vm_compute; reflexivity.
Defined.

(** A value found of 29650.4 against a stored 29650: nothing happens. *)
Lemma main_rounded_price_witness :
  fst (main ascii_only_decimal ascii_upper plain_soup env_round_same) = [].
Proof.
  apply (proj2 (main_rounded_price ascii_only_decimal ascii_upper plain_soup env_round_same
           page_29650_4 (Dfin false 296504 (-1)) eq_refl ltac:(vm_compute; reflexivity))
           (Dfin false 29650 0) 29650);
    vm_compute; reflexivity.
Defined.

(** The second of three attempts succeeds: one failed request, a one-second
    sleep, then the page. *)
Lemma fetch_html_first_success_witness :
  fetch_html get_second_ok 3 = ([Get 1; Sleep 1; Get 2], Some (pystr_of "<html>")) /\
  pystr_of "<html>" <> [].
Proof.
  change [Get 1%nat; Sleep 1; Get 2%nat] with (flat_map (attempt_events 3) (seq 1 (2 - 1)) ++ [Get 2]).
  apply fetch_html_first_success; [lia | reflexivity |].
  intros j Hj. assert (j = 1%nat) as -> by lia. reflexivity.
Defined.

(** Three failed attempts: sleeps of 1 and 2 seconds between them. *)
Lemma fetch_html_all_fail_witness :
  fetch_html get_never_ok 3%nat = ([Get 1%nat; Sleep 1; Get 2%nat; Sleep 2; Get 3%nat], None).
Proof.
  change [Get 1%nat; Sleep 1; Get 2%nat; Sleep 2; Get 3%nat] with (flat_map (attempt_events 3) (seq 1 3)).
  apply fetch_html_all_fail. intros j Hj. reflexivity.
Defined.

(** Istanbul's offset of 10800 seconds is written "+03:00". *)
Lemma offset_str_read_back_witness :
  offset_str 10800 = pystr_of "+03:00" /\ read_offset (offset_str 10800) = Some 180.
Proof.
  split; [vm_compute; reflexivity|].
  exact (offset_str_read_back 10800 ltac:(vm_compute; reflexivity)).
Defined.

(** 29650.50 is shown as "29.650" (half to even), which reads back as 29650. *)
Lemma format_tl_read_back_witness :
  exists s, format_tl (Dfin false 2965050 (-2)) = inr s /\
  turkish_number_to_decimal ascii_only_decimal s = Some (dec_of_Z 29650).
Proof.
  apply format_tl_read_back; vm_compute; reflexivity.
Defined.

Lemma save_load_round_trip_witness :
  load_last_price ascii_only_decimal (JsonDict (Some (JInt 29800))) = Some (dec_of_Z 29800).
Proof.
  apply (save_load_round_trip ascii_only_decimal env_first (Dfin false 29800 0) 29800
           (utcnow_iso env_first ++ pystr_of "Z")).
  vm_compute. left. reflexivity.
Defined.

Lemma main_rerun_after_write_witness :
  main ascii_only_decimal ascii_upper plain_soup env_rerun = ([], inr 0).
Proof.
  apply (main_rerun_after_write ascii_only_decimal ascii_upper plain_soup env_first env_rerun
           page_29800 29800 (utcnow_iso env_first ++ pystr_of "Z"));
    vm_compute; first [reflexivity | left; reflexivity].
Defined.

(** A stored "NaN": the run stops with an exception, sending and writing
    nothing. *)
Lemma main_nonfinite_last_witness :
  exists ex, main ascii_only_decimal ascii_upper plain_soup env_nan_state = ([], inl ex).
Proof.
  apply (main_nonfinite_last ascii_only_decimal ascii_upper plain_soup env_nan_state page_29800
           (Dfin false 29800 0) (Dnan false false 0));
    vm_compute; first [reflexivity | discriminate].
Defined.

Lemma main_price_too_large_witness :
  main ascii_only_decimal ascii_upper plain_soup env_huge = ([], inl InvalidOperation).
Proof.
  apply (main_price_too_large ascii_only_decimal ascii_upper plain_soup env_huge page_huge
           (Dfin false 10000000000000000000000000000%N 0));
    [reflexivity | discriminate | vm_compute; reflexivity | discriminate |].
  intros n Hn. vm_compute in Hn. injection Hn as <-. unfold DEFAULT_PREC. lia.
Defined.

(** The table of [table_soup] gives 29650 from its "YENI" column; the
    neighborhood scan of "Cumhuriyet YENI 29.650" gives 29650. *)
Lemma strategies_at_least_1000_witness :
  parse_price_via_table ascii_only_decimal ascii_upper table_soup page_29650 = inr (Some (Dfin false 29650 0)) /\
  dec_leb DEC_1000 (Dfin false 29650 0) = true /\
  parse_price_neighborhood ascii_only_decimal plain_soup page_29650 = inr (Some (Dfin false 29650 0)) /\
  dec_leb DEC_1000 (Dfin false 29650 0) = true.
Proof.
  assert (Ht : parse_price_via_table ascii_only_decimal ascii_upper table_soup page_29650
               = inr (Some (Dfin false 29650 0))) by (vm_compute; reflexivity).
  assert (Hn : parse_price_neighborhood ascii_only_decimal plain_soup page_29650
               = inr (Some (Dfin false 29650 0))) by (vm_compute; reflexivity).
  split; [exact Ht|]. split; [exact (proj1 (strategies_at_least_1000 ascii_only_decimal ascii_upper table_soup page_29650) _ Ht)|].
  split; [exact Hn|]. exact (proj2 (strategies_at_least_1000 ascii_only_decimal ascii_upper plain_soup page_29650) _ Hn).
Defined.

Lemma strategies_nonneg_finite_witness :
  parse_price_with_bs4 ascii_only_decimal plain_soup page_29650 = Some (Dfin false 29650 0) /\
  parse_price_with_regex ascii_only_decimal page_29650 = Some (Dfin false 29650 0) /\
  exists c e, Dfin false 29650 0 = Dfin false c e.
Proof.
  assert (Hb : parse_price_with_bs4 ascii_only_decimal plain_soup page_29650 = Some (Dfin false 29650 0))
    by (vm_compute; reflexivity).
  split; [exact Hb|]. split; [vm_compute; reflexivity|].
  exact (proj1 (strategies_nonneg_finite ascii_only_decimal plain_soup page_29650) _ Hb).
Defined.

(** "1,234,567" is not read as a number. *)
Lemma turkish_two_commas_rejected_witness :
  turkish_number_to_decimal ascii_only_decimal (pystr_of "1,234,567") = None.
Proof. apply turkish_two_commas_rejected. vm_compute. lia. Defined.
